(** * CryoSIM action-table planner (cockpit)

    A shallow embedding of [cockpit/experiment/cryosim.py]
    ([CryoSIM.generateActions], [CryoSIM.expose]) and of the stage-axis
    timing oracle [_MicroscopeStageAxis.getMovementTime] of
    [cockpit/devices/microscopeDevice.py].

    Conventions of the embedding.
    - Times ([decimal.Decimal]) and positions (Python floats) are exact
      rationals [Q]; rounding of binary floating point is not modelled.
    - A Python exception is an [Err] result; it aborts the whole call.
    - The planner mutates a table and a counter dictionary; both are passed
      explicitly.
    - Python sets of handlers are lists in iteration order. *)

From Stdlib Require Import String DecimalString.
From Stdlib Require Import QArith Qround Qminmax Qabs.
From Stdlib Require Import ZArith List Bool Lia Lqa.
Import ListNotations.

Open Scope Q_scope.

(** ** Results of fallible code *)

Inductive Error : Set :=
| OutOfOrder          (* ActionTable.append refused an earlier timestamp *)
| ZeroDivisionError   (* division by zero *)
| AttributeError.     (* method call on [None] *)

Inductive result (A : Type) : Type :=
| Ok  (a : A)
| Err (e : Error).

Arguments Ok {A} a.
Arguments Err {A} e.

Definition bind {A B : Type} (m : result A) (k : A -> result B) : result B :=
  match m with
  | Ok a => k a
  | Err e => Err e
  end.

Notation "x <- m ;; k" := (bind m (fun x => k))
  (at level 61, m at next level, right associativity).
Notation "' p <- m ;; k" := (bind m (fun p => k))
  (at level 61, p pattern, m at next level, right associativity).

(** A [for] loop whose body may raise. *)
Fixpoint foldM {S A : Type} (body : S -> A -> result S) (l : list A) (s : S)
  : result S :=
  match l with
  | [] => Ok s
  | x :: l' => s' <- body s x ;; foldM body l' s'
  end.

(** ** Time *)

Definition Time := Q.

Definition Qltb (a b : Q) : bool :=
  match a ?= b with
  | Lt => true
  | _ => false
  end.

(** Python's [max(a, b)]: the first argument unless the second is larger. *)
Definition pymax (a b : Time) : Time := if Qltb a b then b else a.

(** ** Resources and the action table *)

Definition Camera := nat.
Definition Light := nat.

(** Handler objects, compared by identity.  [HNone] is Python's [None] used
    where a handler is expected. *)
Inductive Handler : Set :=
| HCamera (c : Camera)
| HLight (l : Light)
| HClient (n : nat)
| HPositioner (n : nat)
| HNone.

Definition Handler_eq_dec (a b : Handler) : {a = b} + {a <> b}.
Proof. decide equality; apply Nat.eq_dec. Defined.

Definition handler_eqb (a b : Handler) : bool :=
  if Handler_eq_dec a b then true else false.

(** The third argument of [addAction]: [True] for a digital trigger, the
    sequence index for a pattern-generator client, the altitude for a stage
    move. *)
Inductive Payload : Set :=
| SetDigital (b : bool)
| Custom (i : nat)
| MoveAbsolute (z : Q).

Record Action : Set := mkAction {
  timestamp : Time;
  target : Handler;
  payload : Payload
}.

(** Entries in append order. *)
Definition ActionTable := list Action.

Module ActionTable.

(** Modelled from the spec: module [cockpit.experiment.actionTable] is not
    among the sources.  The most recently appended entry for a handler. *)
Fixpoint lastFrom (acc : option Action) (t : ActionTable) (h : Handler)
  : option Action :=
  match t with
  | [] => acc
  | a :: t' =>
      lastFrom (if handler_eqb (target a) h then Some a else acc) t' h
  end.

Definition getLastActionFor (t : ActionTable) (h : Handler) : option Action :=
  lastFrom None t h.

(** Modelled from the spec: [append(timestamp, target, payload)] "fails with
    OutOfOrder if timestamp is strictly less than the timestamp of the most
    recently appended entry for that same target resource"; otherwise the
    entry is added at the end. *)
Definition addAction (time : Time) (h : Handler) (p : Payload)
           (t : ActionTable) : result ActionTable :=
  match getLastActionFor t h with
  | Some a =>
      if Qltb time (timestamp a) then Err OutOfOrder
      else Ok (t ++ [mkAction time h p])
  | None => Ok (t ++ [mkAction time h p])
  end.

End ActionTable.

Import ActionTable.

(** ** The stage axis timing oracle (microscopeDevice.py) *)

Module MicroscopeDevice.

(** The parts of [_MicroscopeStageAxis] that [getMovementTime] reads: the
    two configuration entries (absent, or already parsed by [float]) and
    the [velocity] attribute of the wrapped axis, when it has one. *)
Record StageAxis : Set := {
  config_settlingtime : option Q;
  config_velocity : option Q;
  axis_velocity : option Q
}.

(** [config.get(key, default)] *)
Definition config_get (entry : option Q) (default : Q) : Q :=
  match entry with
  | Some v => v
  | None => default
  end.

(** [_MicroscopeStageAxis.getMovementTime]; the division raises when the
    velocity is zero. *)
Definition getMovementTime (self : StageAxis) (axis : nat) (start end_ : Q)
  : result (Time * Time) :=
  let dt := config_get (config_settlingtime self) 10 in
  let vel := config_get (config_velocity self) 1000 in
  let vel := match axis_velocity self with
             | Some v => v
             | None => vel
             end in
  if Qeq_bool vel 0 then Err ZeroDivisionError
  else Ok (Qabs (end_ - start) / vel, dt).

End MicroscopeDevice.

(** ** The experiment (cryosim.py) *)

(** A positioner handler: its identity and its [getMovementTime] callback. *)
Record Positioner : Type := {
  positionerId : nat;
  getMovementTime : Q -> Q -> result (Time * Time)
}.

(** The handler that [_MicroscopeStageAxis.__init__] builds: the callback is
    the axis's own [getMovementTime] at the handler's axis index. *)
Definition stageAxisHandler (ax : MicroscopeDevice.StageAxis) (index : nat)
  : Positioner :=
  {| positionerId := index;
     getMovementTime := MicroscopeDevice.getMovementTime ax index |}.

(** An executor handler; only its analog clients matter here. *)
Record Executor : Set := { analogClients : list Handler }.

Record Experiment : Type := {
  cameras : list Camera;
  lights : list Light;
  getExposureTime : Camera -> Time;
  getTimeBetweenExposures : Camera -> Time;
  getResetTime : list Camera -> Time;
  cameraToIsReady : Camera -> bool;
  sequence : list (Q * Q * Q);
  slmHandler : option Executor;
  rotorHandler : option Executor;
  zPositioner : option Positioner;
  zStart : Q;
  zHeight : Q;
  sliceHeight : Q;
  numReps : Z;
  exposureSettings : list (list Camera * list (Light * Time))
}.

(** [self.cameraToImageCount]: a counter per camera.  The dictionary is
    filled by the base class for every camera of the experiment; a missing
    key is not modelled. *)
Definition ImageCount := Camera -> nat.

Definition increment (counts : ImageCount) (c : Camera) : ImageCount :=
  fun c' => if Nat.eqb c' c then S (counts c') else counts c'.

(** The sequence built by [CryoSIM.__init__]. *)
Definition initSequence (numAngles numPhases : nat) : list (Q * Q * Q) :=
  let w := 488 / 1000000000 in
  let angle := 180 in
  let phase := 360 in
  flat_map (fun i =>
    map (fun j =>
           (inject_Z (Z.of_nat i) * angle / inject_Z (Z.of_nat numAngles),
            inject_Z (Z.of_nat j) * phase / inject_Z (Z.of_nat numPhases),
            w))
        (seq 0 numPhases))
    (seq 0 numAngles).

(** [self.zPositioner] as the target of an action. *)
Definition zHandler (self : Experiment) : Handler :=
  match zPositioner self with
  | Some p => HPositioner (positionerId p)
  | None => HNone
  end.

(** [self.zPositioner.getMovementTime(start, end)] *)
Definition zMovementTime (self : Experiment) (start end_ : Q)
  : result (Time * Time) :=
  match zPositioner self with
  | Some p => getMovementTime p start end_
  | None => Err AttributeError
  end.

(** Modelled from the spec: [Experiment.getTimeWhenCameraCanExpose] belongs to
    the base class, which is not among the sources.  It is the spec's
    [earliest_available]: "the timestamp of the last entry scheduled against
    target plus that resource's own post-action busy duration", for a camera
    its exposure time plus its gap, and zero "if the resource has no prior
    entries". *)
Definition getTimeWhenCameraCanExpose (self : Experiment) (t : ActionTable)
           (camera : Camera) : Time :=
  match getLastActionFor t (HCamera camera) with
  | Some a =>
      timestamp a + (getExposureTime self camera
                     + getTimeBetweenExposures self camera)
  | None => 0
  end.

(** Modelled from the spec: [Experiment.resetCams] belongs to the base class,
    which is not among the sources.  "For every camera resource not already
    in a known-ready state, emit a reset/arm action" at the cursor, then
    "advance the cursor past the reset duration reported by the oracle". *)
Definition resetCams (self : Experiment) (curTime : Time)
           (cams : list Camera) (t : ActionTable) : result (Time * ActionTable) :=
  t' <- foldM (fun t camera =>
                 addAction curTime (HCamera camera) (SetDigital true) t)
              cams t ;;
  Ok (curTime + getResetTime self cams, t').

(** [CryoSIM.expose] *)
Definition acquisitionTimes (self : Experiment) (t : ActionTable)
           (cams : list Camera) : Time * Time :=
  fold_left
    (fun (acc : Time * Time) camera =>
       let (max_acq_time, last_ready) := acc in
       let exposure := getExposureTime self camera in
       let waiting := getTimeBetweenExposures self camera in
       let max_acq_time :=
         if Qltb max_acq_time (exposure + waiting)
         then exposure + waiting else max_acq_time in
       let ready := getTimeWhenCameraCanExpose self t camera in
       let last_ready := if Qltb last_ready ready then ready else last_ready in
       (max_acq_time, last_ready))
    cams (0, 0).

Definition triggerLights (self : Experiment) (curTime : Time) (t : ActionTable)
  : result ActionTable :=
  foldM (fun t light => addAction curTime (HLight light) (SetDigital true) t)
        (lights self) t.

Definition triggerCameras (curTime : Time) (cams : list Camera)
           (s : ActionTable * ImageCount) : result (ActionTable * ImageCount) :=
  foldM (fun (s : ActionTable * ImageCount) camera =>
           let (t, counts) := s in
           t' <- addAction curTime (HCamera camera) (SetDigital true) t ;;
           Ok (t', increment counts camera))
        cams s.

Definition expose (self : Experiment) (curTime : Time) (cams : list Camera)
           (t : ActionTable) (counts : ImageCount)
  : result (Time * ActionTable * ImageCount) :=
  let (max_acq_time, last_ready) := acquisitionTimes self t cams in
  t1 <- triggerLights self curTime t ;;
  '(t2, counts2) <- triggerCameras curTime cams (t1, counts) ;;
  let curTime := curTime + max_acq_time in
  let exposureEndTime := pymax last_ready curTime in
  Ok (exposureEndTime, t2, counts2).

(** The state of the planner between statements of [generateActions]. *)
Record Planner : Type := mkPlanner {
  table : ActionTable;
  curTime : Time;
  imageCount : ImageCount
}.

(** The two [if handler is not None and len(handler.analogClients) > 0]
    blocks of the per-step loop. *)
Definition triggerClients (handler : option Executor) (curTime : Time)
           (i : nat) (t : ActionTable) : result ActionTable :=
  match handler with
  | Some h =>
      if (0 <? length (analogClients h))%nat
      then foldM (fun t client => addAction curTime client (Custom i) t)
                 (analogClients h) t
      else Ok t
  | None => Ok t
  end.

(** One iteration of [for i in range(len(self.sequence))]. *)
Definition sequenceStep (self : Experiment) (s : Planner) (i : nat)
  : result Planner :=
  t1 <- triggerClients (slmHandler self) (curTime s) i (table s) ;;
  t2 <- triggerClients (rotorHandler self) (curTime s) i t1 ;;
  '(curTime', t3, counts) <-
     expose self (curTime s) (cameras self) t2 (imageCount s) ;;
  (* Wait a few ms for any necessary SLM triggers. *)
  Ok (mkPlanner t3 (curTime' + 5) counts).

Definition zTargetOf (self : Experiment) (zIndex : nat) : Q :=
  zStart self + sliceHeight self * inject_Z (Z.of_nat zIndex).

(** One iteration of [for zIndex in range(numZSlices)]; the loop also carries
    [prevAltitude]. *)
Definition zSlice (self : Experiment) (sp : Planner * option Q) (zIndex : nat)
  : result (Planner * option Q) :=
  let (s, prevAltitude) := sp in
  let zTarget := zTargetOf self zIndex in
  '(motionTime, stabilizationTime) <-
     match prevAltitude with
     | Some prev => zMovementTime self prev zTarget
     | None => Ok (0, 0)
     end ;;
  let curTime1 := curTime s + motionTime in
  t1 <- addAction curTime1 (zHandler self) (MoveAbsolute zTarget) (table s) ;;
  let curTime2 := curTime1 + stabilizationTime in
  s' <- foldM (sequenceStep self) (seq 0 (length (sequence self)))
              (mkPlanner t1 curTime2 (imageCount s)) ;;
  (* Hold the Z motion flat during the exposure. *)
  t2 <- addAction (curTime s') (zHandler self) (MoveAbsolute zTarget)
                  (table s') ;;
  Ok (mkPlanner t2 (curTime s') (imageCount s'), Some zTarget).

(** [int(np.ceil(self.zHeight / self.sliceHeight))], plus one when
    [self.zHeight > 1e-6]. *)
Definition numZSlices (self : Experiment) : result Z :=
  if Qeq_bool (sliceHeight self) 0 then Err ZeroDivisionError
  else
    let n := Qceiling (zHeight self / sliceHeight self) in
    Ok (if Qltb (1 / 1000000) (zHeight self) then (n + 1)%Z else n).

(** [range(n)] *)
Definition range (n : Z) : list nat := seq 0 (Z.to_nat n).

(** The reset phase: lines 72-77. *)
Definition resetPhase (self : Experiment) (counts : ImageCount)
  : result Planner :=
  let camsToReset :=
    filter (fun camera => negb (cameraToIsReady self camera)) (cameras self) in
  match camsToReset with
  | [] => Ok (mkPlanner [] 0 counts)
  | _ :: _ =>
      '(curTime', t) <- resetCams self 0 camsToReset [] ;;
      Ok (mkPlanner t curTime' counts)
  end.

(** The Z-slice loop: lines 79-118. *)
Definition zIndices (self : Experiment) : result (list nat) :=
  n <- numZSlices self ;; Ok (range n).

Definition slicePhase (self : Experiment) (s : Planner)
  : result (Planner * option Q) :=
  indices <- zIndices self ;;
  foldM (zSlice self) indices (s, None).

(** [cameraReadyTime]: lines 129-135. *)
Definition cameraReadyTime (self : Experiment) (t : ActionTable) : Time :=
  if (1 <? numReps self)%Z
  then
    fold_left
      (fun acc (setting : list Camera * list (Light * Time)) =>
         fold_left
           (fun acc camera =>
              pymax acc (getTimeWhenCameraCanExpose self t camera))
           (fst setting) acc)
      (exposureSettings self) 0
  else 0.

(** The return phase: lines 120-140. *)
Definition returnPhase (self : Experiment) (s : Planner) : result Planner :=
  '(motionTime, stabilizationTime) <- zMovementTime self (zHeight self) 0 ;;
  let curTime1 := curTime s + motionTime in
  t1 <- addAction curTime1 (zHandler self) (MoveAbsolute (zStart self))
                  (table s) ;;
  let ready := cameraReadyTime self t1 in
  t2 <- addAction (pymax (curTime1 + stabilizationTime) ready)
                  (zHandler self) (MoveAbsolute (zStart self)) t1 ;;
  Ok (mkPlanner t2 curTime1 (imageCount s)).

(** [CryoSIM.generateActions]; the counters it leaves behind are returned
    next to the table. *)
Definition generateActions (self : Experiment) (counts : ImageCount)
  : result (ActionTable * ImageCount) :=
  s0 <- resetPhase self counts ;;
  '(s1, _) <- slicePhase self s0 ;;
  s2 <- returnPhase self s1 ;;
  Ok (table s2, imageCount s2).

(** * Specification vocabulary *)

(** Every entry aimed at [h] is no later than [c]: an append to [h] at [c]
    is in order. *)
Definition admits (t : ActionTable) (h : Handler) (c : Time) : Prop :=
  forall a, In a t -> target a = h -> timestamp a <= c.

(** Every entry is no later than the cursor [c]. *)
Definition bounded (t : ActionTable) (c : Time) : Prop :=
  forall a, In a t -> timestamp a <= c.

(** A run of entries in non-decreasing timestamp order, starting no earlier
    than [lo] and ending no later than [hi]. *)
Fixpoint ascending (lo : Time) (l : list Action) (hi : Time) : Prop :=
  match l with
  | [] => lo <= hi
  | a :: l' => lo <= timestamp a /\ ascending (timestamp a) l' hi
  end.

Fixpoint nondecreasing (l : list Time) : Prop :=
  match l with
  | [] => True
  | x :: l' =>
      match l' with
      | [] => True
      | y :: _ => x <= y /\ nondecreasing l'
      end
  end.

(** The entries aimed at one handler, in append order. *)
Definition entriesFor (h : Handler) (t : ActionTable) : list Action :=
  filter (fun a => handler_eqb (target a) h) t.

Definition timestampsFor (h : Handler) (t : ActionTable) : list Time :=
  map timestamp (entriesFor h t).

(** The maximum of a list of times; times are non-negative, so the maximum of
    no times at all is zero. *)
Definition maximum (l : list Time) : Time := fold_left Qmax l 0.

(** The entries that a loop sending [p] at time [c] to each of [l] appends. *)
Definition sentTo {A : Type} (mk : A -> Handler) (p : A -> Payload) (c : Time)
           (l : list A) : list Action :=
  map (fun x => mkAction c (mk x) (p x)) l.

(** The planner moved from [s] to [s']: entries were only appended, in
    non-decreasing timestamp order, none before the old cursor and none after
    the new one. *)
Definition advances (s s' : Planner) : Prop :=
  exists new, table s' = table s ++ new
              /\ ascending (curTime s) new (curTime s').

(** Every query of the motion-time oracle is answered, with non-negative
    times. *)
Definition motionOracleOk (self : Experiment) : Prop :=
  forall a b, exists mt st,
    zMovementTime self a b = Ok (mt, st) /\ 0 <= mt /\ 0 <= st.

(** What the return phase appends after a table [t] that ends at cursor [c]. *)
Definition returnMove (self : Experiment) (c mt : Time) : Action :=
  mkAction (c + mt) (zHandler self) (MoveAbsolute (zStart self)).

Definition finalHold (self : Experiment) (t : ActionTable) (c mt st : Time)
  : Action :=
  mkAction (pymax (c + mt + st) (cameraReadyTime self t))
           (zHandler self) (MoveAbsolute (zStart self)).

(** The velocity and the settling time that [getMovementTime] works with:
    the device-reported velocity when the axis has one, otherwise the
    configured one (default 1000); the configured settling time
    (default 10). *)
Definition velocityOf (ax : MicroscopeDevice.StageAxis) : Q :=
  match MicroscopeDevice.axis_velocity ax with
  | Some v => v
  | None => MicroscopeDevice.config_get (MicroscopeDevice.config_velocity ax) 1000
  end.


(** Two positioners are the same handler with the same oracle. *)
Definition samePositioner (p p' : option Positioner) : Prop :=
  match p, p' with
  | Some a, Some b =>
      positionerId a = positionerId b
      /\ forall x y, getMovementTime a x y = getMovementTime b x y
  | None, None => True
  | _, _ => False
  end.

(** Two experiments describe the same plan: the same cameras, lights,
    sequence, Z parameters, handlers and repetition count, and timing oracles
    that give the same answer to every query. *)
Record samePlan (self other : Experiment) : Prop := {
  same_cameras : cameras self = cameras other;
  same_lights : lights self = lights other;
  same_exposure : forall c, getExposureTime self c = getExposureTime other c;
  same_gap :
    forall c, getTimeBetweenExposures self c = getTimeBetweenExposures other c;
  same_reset : forall l, getResetTime self l = getResetTime other l;
  same_ready : forall c, cameraToIsReady self c = cameraToIsReady other c;
  same_sequence : sequence self = sequence other;
  same_slm : slmHandler self = slmHandler other;
  same_rotor : rotorHandler self = rotorHandler other;
  same_positioner : samePositioner (zPositioner self) (zPositioner other);
  same_zStart : zStart self = zStart other;
  same_zHeight : zHeight self = zHeight other;
  same_sliceHeight : sliceHeight self = sliceHeight other;
  same_numReps : numReps self = numReps other;
  same_settings : exposureSettings self = exposureSettings other
}.

(** Two results agree: both fail with the same error, or both succeed with
    related values. *)
Definition agree {A B : Type} (R : A -> B -> Prop) (r : result A)
           (r' : result B) : Prop :=
  match r, r' with
  | Ok a, Ok b => R a b
  | Err e, Err e' => e = e'
  | _, _ => False
  end.

(** Two planner states with the same table and cursor; the image counters
    may differ. *)
Definition sameSchedule (s s' : Planner) : Prop :=
  table s = table s' /\ curTime s = curTime s'.

(** The table of a run of [generateActions]. *)
Definition tableOf (r : result (ActionTable * ImageCount)) : result ActionTable :=
  match r with
  | Ok (t, _) => Ok t
  | Err e => Err e
  end.



(** * Test plans *)

Definition noCounts : ImageCount := fun _ => 0%nat.

(** A positioner whose oracle reports the same times for every move. *)
Definition constantStage (mt st : Time) : Positioner :=
  {| positionerId := 2; getMovementTime := fun _ _ => Ok (mt, st) |}.

(** One camera (exposure 50, gap 10), one light, no pattern-generator
    clients, [numAngles] angles and one phase, one repetition. *)
Definition simplePlan (numAngles : nat) (stage : option Positioner)
           (start height slice : Q) : Experiment :=
  {| cameras := [0%nat];
     lights := [0%nat];
     getExposureTime := fun _ => 50;
     getTimeBetweenExposures := fun _ => 10;
     getResetTime := fun _ => 0;
     cameraToIsReady := fun _ => true;
     sequence := initSequence numAngles 1;
     slmHandler := None;
     rotorHandler := None;
     zPositioner := stage;
     zStart := start;
     zHeight := height;
     sliceHeight := slice;
     numReps := 1;
     exposureSettings := [([0%nat], [])] |}.

(** A stage whose every move takes 20 and settles in 5; slices of height 10
    from altitude 0. *)
Definition stagePlan : Experiment :=
  simplePlan 1 (Some (constantStage 20 5)) 0 10 10.

(** A stage axis with no configuration entries and no reported velocity. *)
Definition defaultAxis : MicroscopeDevice.StageAxis :=
  {| MicroscopeDevice.config_settlingtime := None;
     MicroscopeDevice.config_velocity := None;
     MicroscopeDevice.axis_velocity := None |}.

(** A stage axis configured with the given velocity. *)
Definition axisWithVelocity (v : Q) : MicroscopeDevice.StageAxis :=
  {| MicroscopeDevice.config_settlingtime := None;
     MicroscopeDevice.config_velocity := Some v;
     MicroscopeDevice.axis_velocity := None |}.

(** The scenario of two angles and one phase, for a given stage and volume
    height; slices of height 1 from altitude 0. *)
Definition twoAnglePlan (stage : Positioner) (height : Q) : Experiment :=
  simplePlan 2 (Some stage) 0 height 1.

(** A volume of height 3 cut in slices of height 2 from altitude 100, on an
    axis of velocity 1: the move time of a move is its length. *)
Definition unevenPlan : Experiment :=
  simplePlan 1 (Some (stageAxisHandler (axisWithVelocity 1) 2)) 100 3 2.

(** [stagePlan] written differently: the oracles are other functions with
    the same answers. *)
Definition stagePlanAgain : Experiment :=
  {| cameras := [0%nat];
     lights := [0%nat];
     getExposureTime := fun c => if Nat.eqb c 0 then 50 else 50;
     getTimeBetweenExposures := fun _ => 10;
     getResetTime := fun _ => 0;
     cameraToIsReady := fun c => Nat.leb 0 c;
     sequence := initSequence 1 1;
     slmHandler := None;
     rotorHandler := None;
     zPositioner :=
       Some {| positionerId := 2;
               getMovementTime :=
                 fun a b => if Qeq_bool a b then Ok (20, 5) else Ok (20, 5) |};
     zStart := 0;
     zHeight := 10;
     sliceHeight := 10;
     numReps := 1;
     exposureSettings := [([0%nat], [])] |}.

(** * More of microscopeDevice.py *)

(** ** [MicroscopeBase]: the proxy and the user defaults *)

Module MicroscopeBase.

(** A controller device: the dictionary [c._proxy.devices]. *)
Definition Devices (P : Type) := list (string * P).

Fixpoint device {P : Type} (devices : Devices P) (name : string) : option P :=
  match devices with
  | [] => None
  | (n, p) :: rest => if String.eqb n name then Some p else device rest name
  end.

Inductive ConnectFailure : Set :=
| DeviceNotFound       (* "device not found on controller" *)
| NoDevicesFound       (* "no devices found on controller" *)
| MoreThanOneDevice    (* "More than one device found on controller" *)
| NoneHasNoProxy.      (* AttributeError: the controller is [None] *)

(** The part of [MicroscopeBase.initialize] that chooses [self._proxy].
    [direct] is [Pyro4.Proxy(self.uri)]; [controller] is absent when the
    configuration has no ['controller'] entry, and otherwise what
    [depot.getDeviceWithName] returned, [None] or a controller;
    [c_name] is [config.get('controller.name', None)]. *)
Definition connect {P : Type} (direct : P)
           (controller : option (option (Devices P)))
           (c_name : option string) : ConnectFailure + P :=
  match controller with
  | None => inr direct
  | Some c =>
      match c_name with
      | Some name =>
          (* try: ... except: raise Exception("device not found") *)
          match c with
          | Some devices =>
              match device devices name with
              | Some p => inr p
              | None => inl DeviceNotFound
              end
          | None =>
              (* the handler formats its message with [c.name] *)
              inl NoneHasNoProxy
          end
      | None =>
          match c with
          | None => inl NoneHasNoProxy
          | Some [] => inl NoDevicesFound
          | Some [(_, p)] => inr p
          | Some (_ :: _ :: _) => inl MoreThanOneDevice
          end
      end
  end.

(** The pseudo-enum [(DEFAULTS_NONE, DEFAULTS_PENDING, DEFAULTS_SENT)]. *)
Inductive Defaults : Set := DEFAULTS_NONE | DEFAULTS_PENDING | DEFAULTS_SENT.

(** A settings dictionary, and [dict.update]. *)
Definition Settings (V : Type) := string -> option V.

Definition update {V : Type} (old new : Settings V) : Settings V :=
  fun k => match new k with
           | Some v => Some v
           | None => old k
           end.

(** The fields of the device that the defaults logic touches, and the
    settings it has passed to [self._proxy.update_settings], oldest call
    first. *)
Record Device (V : Type) : Type := mkDevice {
  settings : Settings V;
  defaults : Defaults;
  sent : list (Settings V)
}.

Arguments mkDevice {V} _ _ _.
Arguments settings {V} _.
Arguments defaults {V} _.
Arguments sent {V} _.

(** [MicroscopeBase.setAnyDefaults]; [accepted] tells whether the call of
    [update_settings] returns rather than raises. *)
Definition setAnyDefaults {V : Type} (self : Device V) (accepted : bool)
  : Device V :=
  match defaults self with
  | DEFAULTS_PENDING =>
      let self' := mkDevice (settings self) (defaults self)
                            (sent self ++ [settings self]) in
      if accepted
      then mkDevice (settings self') DEFAULTS_SENT (sent self')
      else self'
  | _ => self   (* nothing to do *)
  end.

(** [MicroscopeBase._readUserConfig]; [user] is what
    [userConfig.getValue] returned. *)
Definition _readUserConfig {V : Type} (self : Device V)
           (user : option (Settings V)) (accepted : bool) : Device V :=
  match user with
  | None => mkDevice (settings self) DEFAULTS_NONE (sent self)
  | Some values =>
      setAnyDefaults
        (mkDevice (update (settings self) values) DEFAULTS_PENDING (sent self))
        accepted
  end.

End MicroscopeBase.

(** ** [MicroscopeStage] and [_MicroscopeStageAxis] *)

Module MicroscopeStage.

(** The letters of [for one_letter_name in 'xyz']. *)
Inductive AxisLetter : Set := LetterX | LetterY | LetterZ.

(** Modelled from the spec: [stageMover.AXIS_MAP] is not among the sources;
    the docstring of [_MicroscopeStageAxis] gives its values, "0 for X, 1 for
    Y, or 2 for Z". *)
Definition AXIS_MAP (letter : AxisLetter) : nat :=
  match letter with
  | LetterX => 0
  | LetterY => 1
  | LetterZ => 2
  end.

(** A Python float as the stage reads it from the device or from its
    configuration: a finite value, an infinity or a nan.  Finite values are
    taken exactly. *)
Inductive Num : Set :=
| Finite (value : Q)
| PlusInfinity
| MinusInfinity
| NaN.

Inductive Failure : Set :=
| ConnectionFailed (e : MicroscopeBase.ConnectFailure)
| RemoteCallFailed       (* a call on the proxy or on a device axis raised *)
| UnknownAxis (their_name : string)
| MissingUnits (letter : AxisLetter)
| UnparsableUnits (letter : AxisLetter)   (* ValueError of [float] *)
| NonPositiveUnits (letter : AxisLetter)
| NoConfigurationFor (their_name : string)
| DivisionByZero.

(** [x <= y] on floats; every comparison with a nan is false. *)
Definition leq (x y : Num) : bool :=
  match x, y with
  | NaN, _ | _, NaN => false
  | MinusInfinity, _ | _, PlusInfinity => true
  | Finite a, Finite b => Qle_bool a b
  | _, _ => false
  end.

(** [x / y] on floats: a zero divisor raises, whatever the dividend. *)
Definition divide (x y : Num) : Failure + Num :=
  match y with
  | Finite d =>
      if Qeq_bool d 0 then inl DivisionByZero
      else inr match x with
               | Finite n => Finite (n / d)
               | PlusInfinity =>
                   if Qle_bool 0 d then PlusInfinity else MinusInfinity
               | MinusInfinity =>
                   if Qle_bool 0 d then MinusInfinity else PlusInfinity
               | NaN => NaN
               end
  | PlusInfinity | MinusInfinity =>
      inr match x with
          | Finite _ => Finite 0
          | _ => NaN
          end
  | NaN => inr NaN
  end.

(** A [microscope.devices.StageAxis] as cockpit reads it, through the
    proxy: an attribute is absent when reading it raises. *)
Record DeviceAxis : Set := {
  limits : option (Num * Num);
  position : option Num
}.

(** What [float] makes of a configuration entry. *)
Inductive Entry : Set :=
| Parsed (value : Num)
| Unparsable.

(** The entries of the device configuration that [initialize] reads:
    [<letter>-axis-name] and [<letter>-units-per-micron]. *)
Record Config : Set := {
  axis_name : AxisLetter -> option string;
  units_per_micron : AxisLetter -> option Entry
}.

(** A [_MicroscopeStageAxis], with what its constructor hands to the
    [PositionerHandler]: the name, the group, the index and the limits. *)
Record Axis : Set := {
  _axis : DeviceAxis;
  _units_per_micron : Num;
  _name : string;
  config : Config;
  handler_group : string;
  handler_index : nat;
  handler_limits : Num * Num
}.

(** ["%d" % n] *)
Definition decimal (n : nat) : string :=
  NilZero.string_of_uint (Nat.to_uint n).

(** [_MicroscopeStageAxis.__init__] *)
Definition newAxis (axis : DeviceAxis) (index : nat) (units : Num)
           (stage_name : string) (cfg : Config) : Failure + Axis :=
  match limits axis with
  | None => inl RemoteCallFailed
  | Some (lower, upper) =>
      match divide lower units with
      | inl e => inl e
      | inr lo =>
          match divide upper units with
          | inl e => inl e
          | inr hi =>
              inr {| _axis := axis;
                     _units_per_micron := units;
                     _name := (decimal index ++ " " ++ stage_name)%string;
                     config := cfg;
                     handler_group := (decimal index ++ " stage motion")%string;
                     handler_index := index;
                     handler_limits := (lo, hi) |}
          end
      end
  end.

(** [_MicroscopeStageAxis.getPosition] *)
Definition getPosition (self : Axis) (index : nat) : Failure + Num :=
  match position (_axis self) with
  | None => inl RemoteCallFailed
  | Some p => divide p (_units_per_micron self)
  end.

(** [their_axes_map]: a dictionary from axis names to device axes, in the
    order of its keys. *)
Definition AxesMap := list (string * DeviceAxis).

Fixpoint lookup (m : AxesMap) (name : string) : option DeviceAxis :=
  match m with
  | [] => None
  | (n, a) :: m' => if String.eqb n name then Some a else lookup m' name
  end.

(** The proxy of the stage device: whether the deferred methods can be
    looked up on it, what its [axes] are, and whether [enable()] returns.  A
    call that raises has no answer. *)
Record Proxy : Set := {
  bound : bool;
  axes : option AxesMap;
  enable : bool
}.

(** [name in handled_axis_names] *)
Definition handled (names : list string) (name : string) : bool :=
  existsb (String.eqb name) names.

(** The state of the first loop of [initialize]: the axes appended to
    [self._axes] and the set [handled_axis_names]. *)
Definition Progress : Set := list Axis * list string.

(** One iteration of [for one_letter_name in 'xyz']. *)
Definition configureAxis (stage_name : string) (cfg : Config)
           (their_axes_map : AxesMap) (st : Progress) (letter : AxisLetter)
  : Failure + Progress :=
  match axis_name cfg letter with
  | None => inr st   (* This stage does not have this axis. *)
  | Some their_name =>
      match lookup their_axes_map their_name with
      | None => inl (UnknownAxis their_name)
      | Some their_axis =>
          match units_per_micron cfg letter with
          | None => inl (MissingUnits letter)
          | Some Unparsable => inl (UnparsableUnits letter)
          | Some (Parsed units) =>
              if leq units (Finite 0)
              then inl (NonPositiveUnits letter)
              else
                match newAxis their_axis (AXIS_MAP letter) units stage_name
                              cfg with
                | inl e => inl e
                | inr axis => inr (fst st ++ [axis], their_name :: snd st)
                end
          end
      end
  end.

Fixpoint configureAxes (stage_name : string) (cfg : Config)
         (their_axes_map : AxesMap) (letters : list AxisLetter)
         (st : Progress) : Failure + Progress :=
  match letters with
  | [] => inr st
  | letter :: rest =>
      match configureAxis stage_name cfg their_axes_map st letter with
      | inl e => inl e
      | inr st' => configureAxes stage_name cfg their_axes_map rest st'
      end
  end.

(** The second loop: the first key that was not handled raises. *)
Fixpoint firstUnhandled (keys names : list string) : option string :=
  match keys with
  | [] => None
  | k :: keys' =>
      if handled names k then firstUnhandled keys' names else Some k
  end.

(** The stage after [initialize]: its proxy and its axes. *)
Record Stage : Set := { _proxy : Proxy; _axes : list Axis }.

(** [MicroscopeStage.initialize], on a stage as [__init__] leaves it, with
    no axes yet.  [super().initialize()] connects the proxy, from the
    arguments of [MicroscopeBase.connect], and looks up the deferred methods
    on it; then come the two loops over the axes and [self._proxy.enable()].
    The result is the stage of a call that returns; a call that raises leaves
    the axes appended so far behind, which the failure does not record. *)
Definition initialize (stage_name : string) (cfg : Config) (direct : Proxy)
           (controller : option (option (MicroscopeBase.Devices Proxy)))
           (c_name : option string) : Failure + Stage :=
  match MicroscopeBase.connect direct controller c_name with
  | inl e => inl (ConnectionFailed e)
  | inr proxy =>
      if negb (bound proxy) then inl RemoteCallFailed
      else
        match axes proxy with
        | None => inl RemoteCallFailed
        | Some their_axes_map =>
            match configureAxes stage_name cfg their_axes_map
                                [LetterX; LetterY; LetterZ] ([], []) with
            | inl e => inl e
            | inr (axs, handled_axis_names) =>
                match firstUnhandled (map fst their_axes_map)
                                     handled_axis_names with
                | Some their_axis_name =>
                    inl (NoConfigurationFor their_axis_name)
                | None =>
                    if enable proxy
                    then inr {| _proxy := proxy; _axes := axs |}
                    else inl RemoteCallFailed
                end
            end
        end
  end.

(** [MicroscopeStage.getHandlers]: one handler per axis, in order; a handler
    is given by its name, group, index and limits. *)
Definition getHandlers (self : Stage)
  : list (string * string * nat * (Num * Num)) :=
  map (fun x => (_name x, handler_group x, handler_index x, handler_limits x))
      (_axes self).

End MicroscopeStage.


(** ** Vocabulary for the shape of a table *)

(** The analog clients that the per-step loop drives through a handler. *)
Definition clientsOf (handler : option Executor) : list Handler :=
  match handler with
  | Some h => analogClients h
  | None => []
  end.

(** The entries of one step of the sequence, sent at [c]: the pattern
    generator clients of the two handlers, then the lights, then the
    cameras. *)
Definition stepEntries (self : Experiment) (c : Time) (i : nat) : list Action :=
  sentTo (fun h => h) (fun _ => Custom i) c (clientsOf (slmHandler self))
  ++ sentTo (fun h => h) (fun _ => Custom i) c (clientsOf (rotorHandler self))
  ++ sentTo HLight (fun _ => SetDigital true) c (lights self)
  ++ sentTo HCamera (fun _ => SetDigital true) c (cameras self).

(** The number of entries of one step. *)
Definition stepWidth (self : Experiment) : nat :=
  (length (clientsOf (slmHandler self))
   + length (clientsOf (rotorHandler self))
   + length (lights self) + length (cameras self))%nat.

(** An entry that the slice loop or the return phase may append: a trigger
    of a light or of a camera of the plan, a sequence index below the length
    of the sequence for an analog client of one of the two handlers, or a
    move of the Z positioner to the start or to a slice altitude. *)
Definition planEntry (self : Experiment) (a : Action) : Prop :=
  (payload a = SetDigital true
   /\ ((exists l, In l (lights self) /\ target a = HLight l)
       \/ (exists cam, In cam (cameras self) /\ target a = HCamera cam)))
  \/ (exists i, (i < length (sequence self))%nat
                /\ payload a = Custom i
                /\ In (target a) (clientsOf (slmHandler self)
                                  ++ clientsOf (rotorHandler self)))
  \/ (target a = zHandler self
      /\ exists z, payload a = MoveAbsolute z
                   /\ (z = zStart self \/ exists k, z = zTargetOf self k)).

(** Times that are at least [d] apart, each from all the later ones. *)
Fixpoint spaced (d : Time) (l : list Time) : Prop :=
  match l with
  | [] => True
  | x :: l' => Forall (fun y => x + d <= y) l' /\ spaced d l'
  end.

(** The time a camera needs between two triggers in the slice loop: its
    exposure time, its gap and the 5 ms that follow every exposure. *)
Definition cameraPeriod (self : Experiment) (cam : Camera) : Time :=
  getExposureTime self cam + getTimeBetweenExposures self cam + 5.

(** The camera entries of a table are spaced, and old enough for a new
    trigger at the cursor [c]. *)
Definition camerasSpaced (self : Experiment) (t : ActionTable) (c : Time)
  : Prop :=
  forall cam, In cam (cameras self) ->
    spaced (cameraPeriod self cam) (timestampsFor (HCamera cam) t)
    /\ Forall (fun x => x + cameraPeriod self cam <= c)
              (timestampsFor (HCamera cam) t).

(** No analog client of the two handlers is a camera. *)
Definition clientsNotCameras (self : Experiment) : Prop :=
  forall h cam,
    In h (clientsOf (slmHandler self) ++ clientsOf (rotorHandler self)) ->
    h <> HCamera cam.

(** The state that the loops keep: no entry after the cursor, and spaced
    camera entries. *)
Definition keepsCameras (self : Experiment) (s : Planner) : Prop :=
  bounded (table s) (curTime s)
  /\ camerasSpaced self (table s) (curTime s).


(** The time one step of the sequence takes at least: the longest exposure
    time plus gap among the cameras, and the 5 ms after the exposure. *)
Definition stepTime (self : Experiment) : Time :=
  maximum (map (fun cam => getExposureTime self cam
                           + getTimeBetweenExposures self cam)
               (cameras self)) + 5.


(** ** Vocabulary for the stage *)

(** The axis that [initialize] builds for a letter: it wraps the device axis
    that the letter names, with the units that [float] read for the letter,
    which the check [units_per_micron <= 0.0] let through. *)
Definition builtFor (stage_name : string) (cfg : MicroscopeStage.Config)
           (their_axes_map : MicroscopeStage.AxesMap)
           (letter : MicroscopeStage.AxisLetter) (w : MicroscopeStage.Axis)
  : Prop :=
  exists their_name,
    MicroscopeStage.axis_name cfg letter = Some their_name
    /\ MicroscopeStage.lookup their_axes_map their_name
       = Some (MicroscopeStage._axis w)
    /\ MicroscopeStage.units_per_micron cfg letter
       = Some (MicroscopeStage.Parsed (MicroscopeStage._units_per_micron w))
    /\ MicroscopeStage.leq (MicroscopeStage._units_per_micron w)
                            (MicroscopeStage.Finite 0)
       = false
    /\ MicroscopeStage.newAxis (MicroscopeStage._axis w)
                               (MicroscopeStage.AXIS_MAP letter)
                               (MicroscopeStage._units_per_micron w)
                               stage_name cfg
       = inr w.

(** The limits that the constructor hands to the handler of an axis: those
    of the device axis, each divided by the units per micron. *)
Definition scaledLimits (w : MicroscopeStage.Axis) : Prop :=
  exists lower upper,
    MicroscopeStage.limits (MicroscopeStage._axis w) = Some (lower, upper)
    /\ MicroscopeStage.divide lower (MicroscopeStage._units_per_micron w)
       = inr (fst (MicroscopeStage.handler_limits w))
    /\ MicroscopeStage.divide upper (MicroscopeStage._units_per_micron w)
       = inr (snd (MicroscopeStage.handler_limits w)).

(** The letters that a configuration gives a name to, in the order x, y,
    z. *)
Definition configuredLetters (cfg : MicroscopeStage.Config)
  : list MicroscopeStage.AxisLetter :=
  filter (fun letter =>
            match MicroscopeStage.axis_name cfg letter with
            | Some _ => true
            | None => false
            end)
         [MicroscopeStage.LetterX; MicroscopeStage.LetterY;
          MicroscopeStage.LetterZ].

(** A device axis with limits -1000 and 3000, standing at [p]. *)
Definition sampleAxisAt (p : Q) : MicroscopeStage.DeviceAxis :=
  {| MicroscopeStage.limits :=
       Some (MicroscopeStage.Finite (-1000), MicroscopeStage.Finite 3000);
     MicroscopeStage.position := Some (MicroscopeStage.Finite p) |}.

(** A stage device with the two axes A and B. *)
Definition sampleAxes : MicroscopeStage.AxesMap :=
  [("A"%string, sampleAxisAt 500); ("B"%string, sampleAxisAt 0)].

Definition sampleProxy : MicroscopeStage.Proxy :=
  {| MicroscopeStage.bound := true;
     MicroscopeStage.axes := Some sampleAxes;
     MicroscopeStage.enable := true |}.

(** A and B configured as x and y, with 10 and 40 units per micron. *)
Definition sampleConfig : MicroscopeStage.Config :=
  {| MicroscopeStage.axis_name :=
       fun letter =>
         match letter with
         | MicroscopeStage.LetterX => Some "A"%string
         | MicroscopeStage.LetterY => Some "B"%string
         | MicroscopeStage.LetterZ => None
         end;
     MicroscopeStage.units_per_micron :=
       fun letter =>
         match letter with
         | MicroscopeStage.LetterX =>
             Some (MicroscopeStage.Parsed (MicroscopeStage.Finite 10))
         | MicroscopeStage.LetterY =>
             Some (MicroscopeStage.Parsed (MicroscopeStage.Finite 40))
         | MicroscopeStage.LetterZ => None
         end |}.

(** The x axis of the sample stage, as its constructor builds it. *)
Definition sampleAxis : MicroscopeStage.Axis :=
  {| MicroscopeStage._axis := sampleAxisAt 500;
     MicroscopeStage._units_per_micron := MicroscopeStage.Finite 10;
     MicroscopeStage._name := "0 stage"%string;
     MicroscopeStage.config := sampleConfig;
     MicroscopeStage.handler_group := "0 stage motion"%string;
     MicroscopeStage.handler_index := 0;
     MicroscopeStage.handler_limits :=
       (MicroscopeStage.Finite (-1000 / 10),
        MicroscopeStage.Finite (3000 / 10)) |}.

(** * Properties *)

(** ** Order on times *)

Lemma Qltb_true (a b : Q) : Qltb a b = true <-> a < b.
Proof.
  unfold Qltb. rewrite Qlt_alt.
  destruct (a ?= b); split; intros H; congruence.
Qed.

Lemma Qltb_false (a b : Q) : Qltb a b = false <-> b <= a.
Proof.
  split; intros H.
  - apply Qnot_lt_le. intros Hlt. apply Qltb_true in Hlt. congruence.
  - destruct (Qltb a b) eqn:E; [|reflexivity].
    apply Qltb_true in E. exfalso. apply (Qlt_not_le _ _ E H).
Qed.

Lemma pymax_Qmax (a b : Time) : pymax a b = Qmax a b.
Proof.
  unfold pymax, Qltb, Qmax, GenericMinMax.gmax.
  destruct (a ?= b); reflexivity.
Qed.

Lemma pymax_l (a b : Time) : a <= pymax a b.
Proof. rewrite pymax_Qmax. apply Q.le_max_l. Qed.

Lemma pymax_r (a b : Time) : b <= pymax a b.
Proof. rewrite pymax_Qmax. apply Q.le_max_r. Qed.

Lemma Qplus_0_r_eq (c : Q) : c + 0 = c.
Proof.
  destruct c as [n d]. unfold Qplus. simpl.
  rewrite Z.mul_1_r, Z.add_0_r, Pos.mul_1_r. reflexivity.
Qed.

(** ** Loops *)

Lemma foldM_app {S A : Type} (body : S -> A -> result S) (l1 l2 : list A)
      (s : S) :
  foldM body (l1 ++ l2) s = (s' <- foldM body l1 s ;; foldM body l2 s').
Proof.
  revert s. induction l1 as [|x l1 IH]; intros s; simpl; [reflexivity|].
  destruct (body s x); simpl; [apply IH | reflexivity].
Qed.

Lemma foldM_ext {S A : Type} (f g : S -> A -> result S) (l : list A) (s : S) :
  (forall s x, f s x = g s x) -> foldM f l s = foldM g l s.
Proof.
  intros H. revert s. induction l as [|x l IH]; intros s; simpl; [reflexivity|].
  rewrite H. destruct (g s x); simpl; [apply IH | reflexivity].
Qed.

(** ** The table *)

Lemma handler_eqb_true (a b : Handler) : handler_eqb a b = true <-> a = b.
Proof.
  unfold handler_eqb. destruct (Handler_eq_dec a b); split; congruence.
Qed.

Lemma handler_eqb_refl (a : Handler) : handler_eqb a a = true.
Proof. apply handler_eqb_true. reflexivity. Qed.

Lemma lastFrom_spec (t : ActionTable) (h : Handler) (acc : option Action)
      (a : Action) :
  lastFrom acc t h = Some a -> (In a t /\ target a = h) \/ acc = Some a.
Proof.
  revert acc. induction t as [|x t IH]; intros acc H; simpl in H.
  - right. exact H.
  - apply IH in H. destruct H as [[Hin Ht] | H].
    + left. split; [right; exact Hin | exact Ht].
    + destruct (handler_eqb (target x) h) eqn:E.
      * injection H as <-. left. split; [left; reflexivity|].
        apply handler_eqb_true. exact E.
      * right. exact H.
Qed.

Lemma getLastActionFor_In (t : ActionTable) (h : Handler) (a : Action) :
  getLastActionFor t h = Some a -> In a t /\ target a = h.
Proof.
  intros H. apply lastFrom_spec in H. destruct H as [H | H]; [exact H|].
  discriminate.
Qed.

Lemma lastFrom_app (t1 t2 : ActionTable) (h : Handler) (acc : option Action) :
  lastFrom acc (t1 ++ t2) h = lastFrom (lastFrom acc t1 h) t2 h.
Proof.
  revert acc. induction t1 as [|x t1 IH]; intros acc; simpl; [reflexivity|].
  apply IH.
Qed.

(** An entry for another handler does not change what was last sent to [h]. *)
Lemma getLastActionFor_other (t : ActionTable) (h : Handler) (a : Action) :
  target a <> h -> getLastActionFor (t ++ [a]) h = getLastActionFor t h.
Proof.
  intros Hne. unfold getLastActionFor. rewrite lastFrom_app. simpl.
  destruct (handler_eqb (target a) h) eqn:E; [|reflexivity].
  apply handler_eqb_true in E. contradiction.
Qed.

Lemma getLastActionFor_same (t : ActionTable) (a : Action) :
  getLastActionFor (t ++ [a]) (target a) = Some a.
Proof.
  unfold getLastActionFor. rewrite lastFrom_app. simpl.
  rewrite handler_eqb_refl. reflexivity.
Qed.

Lemma addAction_admits (t : ActionTable) (h : Handler) (p : Payload)
      (c : Time) :
  admits t h c -> addAction c h p t = Ok (t ++ [mkAction c h p]).
Proof.
  intros H. unfold addAction.
  destruct (getLastActionFor t h) as [a|] eqn:E; [|reflexivity].
  apply getLastActionFor_In in E. destruct E as [Hin Ht].
  assert (Hle : timestamp a <= c) by (apply H; assumption).
  apply Qltb_false in Hle. rewrite Hle. reflexivity.
Qed.

Lemma addAction_inv (t t' : ActionTable) (h : Handler) (p : Payload)
      (c : Time) :
  addAction c h p t = Ok t' -> t' = t ++ [mkAction c h p].
Proof.
  unfold addAction. intros H.
  destruct (getLastActionFor t h) as [a|];
    [destruct (Qltb c (timestamp a)); [discriminate|]|];
    injection H as <-; reflexivity.
Qed.

Lemma bounded_admits (t : ActionTable) (h : Handler) (c c' : Time) :
  bounded t c -> c <= c' -> admits t h c'.
Proof.
  intros Hb Hle a Hin _. apply Qle_trans with c; [apply Hb; exact Hin | exact Hle].
Qed.

Lemma admits_snoc (t : ActionTable) (h h' : Handler) (p : Payload) (c : Time) :
  admits t h c -> admits (t ++ [mkAction c h' p]) h c.
Proof.
  intros H a Hin Ht. apply in_app_or in Hin. destruct Hin as [Hin | [<- | []]].
  - apply H; assumption.
  - simpl. apply Qle_refl.
Qed.

Lemma ascending_le (lo hi : Time) (l : list Action) :
  ascending lo l hi -> lo <= hi.
Proof.
  revert lo. induction l as [|a l IH]; intros lo H; simpl in H; [exact H|].
  destruct H as [H1 H2]. apply Qle_trans with (timestamp a); [exact H1|].
  apply IH. exact H2.
Qed.

Lemma ascending_weaken (lo lo' hi hi' : Time) (l : list Action) :
  ascending lo l hi -> lo' <= lo -> hi <= hi' -> ascending lo' l hi'.
Proof.
  revert lo lo'. induction l as [|a l IH]; intros lo lo' H Hlo Hhi; simpl in *.
  - apply Qle_trans with lo; [exact Hlo|]. apply Qle_trans with hi; assumption.
  - destruct H as [H1 H2]. split.
    + apply Qle_trans with lo; assumption.
    + apply (IH _ _ H2); [apply Qle_refl | exact Hhi].
Qed.

Lemma ascending_app (lo mid hi : Time) (l1 l2 : list Action) :
  ascending lo l1 mid -> ascending mid l2 hi -> ascending lo (l1 ++ l2) hi.
Proof.
  revert lo. induction l1 as [|a l1 IH]; intros lo H1 H2; simpl in *.
  - apply (ascending_weaken mid lo hi hi); [exact H2 | exact H1 | apply Qle_refl].
  - destruct H1 as [Ha H1]. split; [exact Ha|]. apply IH; assumption.
Qed.

Lemma ascending_Forall (lo hi : Time) (l : list Action) :
  ascending lo l hi -> Forall (fun a => lo <= timestamp a <= hi) l.
Proof.
  revert lo. induction l as [|a l IH]; intros lo H; simpl in H; constructor.
  - destruct H as [H1 H2]. split; [exact H1|]. apply (ascending_le _ _ _ H2).
  - destruct H as [H1 H2]. apply IH in H2.
    apply (Forall_impl _ (P := fun b => timestamp a <= timestamp b <= hi)).
    + intros b [Hb1 Hb2]. split; [|exact Hb2].
      apply Qle_trans with (timestamp a); assumption.
    + exact H2.
Qed.

Lemma ascending_filter (f : Action -> bool) (lo hi : Time) (l : list Action) :
  ascending lo l hi -> ascending lo (filter f l) hi.
Proof.
  revert lo. induction l as [|a l IH]; intros lo H; simpl in *; [exact H|].
  destruct H as [H1 H2]. destruct (f a); simpl.
  - split; [exact H1 | apply IH; exact H2].
  - apply IH. apply (ascending_weaken _ _ _ _ _ H2); [exact H1 | apply Qle_refl].
Qed.

Lemma ascending_nondecreasing (lo hi : Time) (l : list Action) :
  ascending lo l hi -> nondecreasing (map timestamp l).
Proof.
  revert lo. induction l as [|a l IH]; intros lo H; [exact I|].
  destruct H as [_ H]. destruct l as [|b l]; [exact I|].
  split; [apply H | apply (IH _ H)].
Qed.

Lemma bounded_app (t new : ActionTable) (c c' : Time) :
  bounded t c -> ascending c new c' -> bounded (t ++ new) c'.
Proof.
  intros Hb Ha a Hin. apply in_app_or in Hin. destruct Hin as [Hin | Hin].
  - apply Qle_trans with c; [apply Hb; exact Hin | apply (ascending_le _ _ _ Ha)].
  - apply ascending_Forall in Ha. rewrite Forall_forall in Ha.
    apply Ha. exact Hin.
Qed.

Lemma bounded_nil (c : Time) : bounded [] c.
Proof. intros a []. Qed.

(** ** Sending one command to several handlers *)

Lemma ascending_sentTo {A : Type} (mk : A -> Handler) (p : A -> Payload)
      (c : Time) (l : list A) :
  ascending c (sentTo mk p c l) c.
Proof.
  induction l as [|x l IH]; simpl; [apply Qle_refl|].
  split; [apply Qle_refl | exact IH].
Qed.

Lemma foldM_addAction {A : Type} (mk : A -> Handler) (p : A -> Payload)
      (c : Time) (l : list A) (t : ActionTable) :
  (forall x, In x l -> admits t (mk x) c) ->
  foldM (fun t x => addAction c (mk x) (p x) t) l t
  = Ok (t ++ sentTo mk p c l).
Proof.
  revert t. induction l as [|x l IH]; intros t H; simpl.
  - rewrite app_nil_r. reflexivity.
  - rewrite addAction_admits by (apply H; left; reflexivity). simpl.
    rewrite IH.
    + rewrite <- app_assoc. reflexivity.
    + intros y Hy. apply admits_snoc. apply H. right. exact Hy.
Qed.

(** The converse: a loop of appends that went through appended exactly these
    entries. *)
Lemma foldM_addAction_inv {A : Type} (mk : A -> Handler) (p : A -> Payload)
      (c : Time) (l : list A) (t t' : ActionTable) :
  foldM (fun t x => addAction c (mk x) (p x) t) l t = Ok t' ->
  t' = t ++ sentTo mk p c l.
Proof.
  revert t. induction l as [|x l IH]; intros t H; simpl in *.
  - injection H as <-. rewrite app_nil_r. reflexivity.
  - destruct (addAction c (mk x) (p x) t) as [t1|e] eqn:E; simpl in H;
      [|discriminate].
    apply addAction_inv in E. subst t1. apply IH in H. subst t'.
    rewrite <- app_assoc. reflexivity.
Qed.

(** ** [expose] *)

Lemma triggerLights_spec (self : Experiment) (c : Time) (t : ActionTable) :
  (forall l, In l (lights self) -> admits t (HLight l) c) ->
  triggerLights self c t
  = Ok (t ++ sentTo HLight (fun _ => SetDigital true) c (lights self)).
Proof. intros H. unfold triggerLights. apply foldM_addAction. exact H. Qed.

Lemma triggerCameras_spec (c : Time) (cams : list Camera) (t : ActionTable)
      (counts : ImageCount) :
  (forall cam, In cam cams -> admits t (HCamera cam) c) ->
  triggerCameras c cams (t, counts)
  = Ok (t ++ sentTo HCamera (fun _ => SetDigital true) c cams,
        fold_left increment cams counts).
Proof.
  unfold triggerCameras. revert t counts.
  induction cams as [|cam cams IH]; intros t counts H; simpl.
  - rewrite app_nil_r. reflexivity.
  - rewrite addAction_admits by (apply H; left; reflexivity). simpl.
    rewrite IH.
    + rewrite <- app_assoc. reflexivity.
    + intros y Hy. apply admits_snoc. apply H. right. exact Hy.
Qed.

Lemma acquisitionTimes_from (self : Experiment) (t : ActionTable)
      (cams : list Camera) (m r : Time) :
  fold_left
    (fun (acc : Time * Time) camera =>
       let (max_acq_time, last_ready) := acc in
       let exposure := getExposureTime self camera in
       let waiting := getTimeBetweenExposures self camera in
       let max_acq_time :=
         if Qltb max_acq_time (exposure + waiting)
         then exposure + waiting else max_acq_time in
       let ready := getTimeWhenCameraCanExpose self t camera in
       let last_ready := if Qltb last_ready ready then ready else last_ready in
       (max_acq_time, last_ready))
    cams (m, r)
  = (fold_left Qmax
       (map (fun cam => getExposureTime self cam
                        + getTimeBetweenExposures self cam) cams) m,
     fold_left Qmax (map (getTimeWhenCameraCanExpose self t) cams) r).
Proof.
  revert m r. induction cams as [|cam cams IH]; intros m r; simpl;
    [reflexivity|].
  rewrite IH. rewrite <- !pymax_Qmax. reflexivity.
Qed.

Lemma acquisitionTimes_spec (self : Experiment) (t : ActionTable)
      (cams : list Camera) :
  acquisitionTimes self t cams
  = (maximum (map (fun cam => getExposureTime self cam
                              + getTimeBetweenExposures self cam) cams),
     maximum (map (getTimeWhenCameraCanExpose self t) cams)).
Proof. apply acquisitionTimes_from. Qed.

Lemma fold_left_Qmax_le (l : list Time) (m : Time) :
  m <= fold_left Qmax l m.
Proof.
  revert m. induction l as [|x l IH]; intros m; simpl; [apply Qle_refl|].
  apply Qle_trans with (Qmax m x); [apply Q.le_max_l | apply IH].
Qed.

Lemma maximum_nonneg (l : list Time) : 0 <= maximum l.
Proof. apply fold_left_Qmax_le. Qed.

Lemma fold_left_Qmax_upper (l : list Time) (m x : Time) :
  In x l -> x <= fold_left Qmax l m.
Proof.
  revert m. induction l as [|y l IH]; intros m H; simpl; [destruct H|].
  destruct H as [<- | H].
  - apply Qle_trans with (Qmax m y); [apply Q.le_max_r | apply fold_left_Qmax_le].
  - apply IH. exact H.
Qed.

Lemma fold_left_Qmax_attained (l : list Time) (m : Time) :
  fold_left Qmax l m = m \/ In (fold_left Qmax l m) l.
Proof.
  revert m. induction l as [|y l IH]; intros m; simpl; [left; reflexivity|].
  destruct (IH (Qmax m y)) as [H | H].
  - rewrite H. rewrite <- pymax_Qmax. unfold pymax.
    destruct (Qltb m y); [right; left; reflexivity | left; reflexivity].
  - right. right. exact H.
Qed.

(** [maximum] is the greatest element of a non-empty list of non-negative
    times. *)
Lemma maximum_greatest (l : list Time) :
  l <> [] -> (forall x, In x l -> 0 <= x) ->
  (forall x, In x l -> x <= maximum l)
  /\ exists y, In y l /\ maximum l == y.
Proof.
  intros Hne Hpos. split.
  - intros x Hx. apply fold_left_Qmax_upper. exact Hx.
  - destruct (fold_left_Qmax_attained l 0) as [H | H].
    + destruct l as [|z l]; [congruence|].
      exists z. split; [left; reflexivity|].
      apply Qle_antisym.
      * unfold maximum. rewrite H. apply Hpos. left. reflexivity.
      * apply fold_left_Qmax_upper. left. reflexivity.
    + exists (maximum l). split; [exact H | reflexivity].
Qed.

Lemma expose_spec (self : Experiment) (c : Time) (cams : list Camera)
      (t : ActionTable) (counts : ImageCount) :
  (forall l, In l (lights self) -> admits t (HLight l) c) ->
  (forall cam, In cam cams -> admits t (HCamera cam) c) ->
  expose self c cams t counts
  = Ok (Qmax (maximum (map (getTimeWhenCameraCanExpose self t) cams))
             (c + maximum (map (fun cam => getExposureTime self cam
                                           + getTimeBetweenExposures self cam)
                               cams)),
        t ++ sentTo HLight (fun _ => SetDigital true) c (lights self)
          ++ sentTo HCamera (fun _ => SetDigital true) c cams,
        fold_left increment cams counts).
Proof.
  intros Hl Hc. unfold expose. rewrite acquisitionTimes_spec.
  rewrite triggerLights_spec by exact Hl. simpl.
  rewrite triggerCameras_spec.
  - simpl. rewrite pymax_Qmax, <- app_assoc. reflexivity.
  - intros cam Hcam a Hin Ht. apply in_app_or in Hin.
    destruct Hin as [Hin | Hin].
    + apply (Hc cam Hcam a Hin Ht).
    + unfold sentTo in Hin. apply in_map_iff in Hin.
      destruct Hin as [x [<- _]]. simpl. apply Qle_refl.
Qed.

(** ** The cursor only moves forward *)

Lemma advances_refl (s : Planner) : advances s s.
Proof.
  exists []. split; [rewrite app_nil_r; reflexivity | apply Qle_refl].
Qed.

Lemma advances_trans (s1 s2 s3 : Planner) :
  advances s1 s2 -> advances s2 s3 -> advances s1 s3.
Proof.
  intros [n1 [E1 A1]] [n2 [E2 A2]]. exists (n1 ++ n2). split.
  - rewrite E2, E1, app_assoc. reflexivity.
  - apply (ascending_app _ _ _ _ _ A1 A2).
Qed.

Lemma advances_bounded (s s' : Planner) :
  bounded (table s) (curTime s) -> advances s s' ->
  bounded (table s') (curTime s').
Proof.
  intros Hb [new [E A]]. rewrite E. apply (bounded_app _ _ _ _ Hb A).
Qed.

Lemma advances_cursor (s s' : Planner) : advances s s' -> curTime s <= curTime s'.
Proof. intros [new [_ A]]. apply (ascending_le _ _ _ A). Qed.

Lemma foldM_advances {A : Type} (body : Planner -> A -> result Planner)
      (l : list A) :
  (forall s x, bounded (table s) (curTime s) ->
               exists s', body s x = Ok s' /\ advances s s') ->
  forall s, bounded (table s) (curTime s) ->
            exists s', foldM body l s = Ok s' /\ advances s s'.
Proof.
  intros Hbody. induction l as [|x l IH]; intros s Hb; simpl.
  - exists s. split; [reflexivity | apply advances_refl].
  - destruct (Hbody s x Hb) as [s1 [E1 A1]]. rewrite E1. simpl.
    destruct (IH s1 (advances_bounded _ _ Hb A1)) as [s2 [E2 A2]].
    exists s2. split; [exact E2 | apply (advances_trans _ _ _ A1 A2)].
Qed.

Lemma triggerClients_spec (handler : option Executor) (c : Time) (i : nat)
      (t : ActionTable) :
  bounded t c ->
  exists new, triggerClients handler c i t = Ok (t ++ new)
              /\ ascending c new c.
Proof.
  intros Hb. unfold triggerClients.
  destruct handler as [h|].
  - destruct (0 <? length (analogClients h))%nat.
    + exists (sentTo (fun x => x) (fun _ => Custom i) c (analogClients h)).
      split; [|apply ascending_sentTo].
      apply (foldM_addAction (fun x => x) (fun _ => Custom i)).
      intros x _. apply (bounded_admits _ _ _ _ Hb). apply Qle_refl.
    + exists []. split; [rewrite app_nil_r; reflexivity | apply Qle_refl].
  - exists []. split; [rewrite app_nil_r; reflexivity | apply Qle_refl].
Qed.

Lemma expose_advances (self : Experiment) (c : Time) (cams : list Camera)
      (t : ActionTable) (counts : ImageCount) :
  bounded t c ->
  exists c' new counts',
    expose self c cams t counts = Ok (c', t ++ new, counts')
    /\ ascending c new c /\ c <= c'.
Proof.
  intros Hb. eexists _, _, _. split; [|split].
  - apply expose_spec; intros x _; apply (bounded_admits _ _ _ _ Hb);
      apply Qle_refl.
  - apply (ascending_app c c c); apply ascending_sentTo.
  - apply Qle_trans with
      (c + maximum (map (fun cam => getExposureTime self cam
                                    + getTimeBetweenExposures self cam) cams)).
    + pose proof (maximum_nonneg
                    (map (fun cam => getExposureTime self cam
                                     + getTimeBetweenExposures self cam) cams)).
      lra.
    + apply Q.le_max_r.
Qed.

Lemma sequenceStep_advances (self : Experiment) (s : Planner) (i : nat) :
  bounded (table s) (curTime s) ->
  exists s', sequenceStep self s i = Ok s' /\ advances s s'.
Proof.
  intros Hb. unfold sequenceStep.
  destruct (triggerClients_spec (slmHandler self) (curTime s) i (table s) Hb)
    as [n1 [E1 A1]].
  rewrite E1. simpl.
  assert (Hb1 : bounded (table s ++ n1) (curTime s))
    by (apply (bounded_app _ _ _ _ Hb A1)).
  destruct (triggerClients_spec (rotorHandler self) (curTime s) i _ Hb1)
    as [n2 [E2 A2]].
  rewrite E2. simpl.
  assert (Hb2 : bounded ((table s ++ n1) ++ n2) (curTime s))
    by (apply (bounded_app _ _ _ _ Hb1 A2)).
  destruct (expose_advances self (curTime s) (cameras self) _ (imageCount s) Hb2)
    as [c' [n3 [counts' [E3 [A3 Hc]]]]].
  rewrite E3. simpl.
  eexists. split; [reflexivity|].
  exists (n1 ++ n2 ++ n3). simpl. split.
  - rewrite !app_assoc. reflexivity.
  - apply (ascending_app _ (curTime s)); [exact A1|].
    apply (ascending_app _ (curTime s)); [exact A2|].
    apply (ascending_weaken _ _ _ _ _ A3); [apply Qle_refl | lra].
Qed.

(** ** One Z slice *)

Lemma zSlice_spec (self : Experiment) (s : Planner) (prev : option Q)
      (zIndex : nat) (mt st : Time) :
  match prev with
  | Some a => zMovementTime self a (zTargetOf self zIndex) = Ok (mt, st)
  | None => mt = 0 /\ st = 0
  end ->
  0 <= mt -> 0 <= st ->
  bounded (table s) (curTime s) ->
  exists s' rest,
    zSlice self (s, prev) zIndex = Ok (s', Some (zTargetOf self zIndex))
    /\ table s'
       = table s
         ++ mkAction (curTime s + mt) (zHandler self)
                     (MoveAbsolute (zTargetOf self zIndex)) :: rest
    /\ ascending (curTime s + mt + st) rest (curTime s').
Proof.
  intros Horacle Hmt Hst Hb. unfold zSlice.
  assert (E0 : match prev with
               | Some prev0 => zMovementTime self prev0 (zTargetOf self zIndex)
               | None => Ok (0, 0)
               end = Ok (mt, st)).
  { destruct prev; [exact Horacle|]. destruct Horacle as [-> ->]. reflexivity. }
  rewrite E0. simpl.
  rewrite addAction_admits
    by (apply (bounded_admits _ _ _ _ Hb); lra).
  simpl.
  set (s1 := mkPlanner _ (curTime s + mt + st) (imageCount s)).
  assert (Hb1 : bounded (table s1) (curTime s1)).
  { unfold s1. simpl. apply (bounded_app _ _ (curTime s)); [exact Hb|].
    simpl. split; lra. }
  destruct (foldM_advances (sequenceStep self) (seq 0 (length (sequence self)))
              (sequenceStep_advances self) s1 Hb1) as [s2 [E2 [new [Et A2]]]].
  rewrite E2. simpl.
  rewrite addAction_admits.
  - simpl. eexists _, (new ++ [_]). split; [reflexivity|]. simpl. split.
    + rewrite Et. unfold s1. simpl. rewrite <- !app_assoc. reflexivity.
    + apply (ascending_app _ (curTime s2)); [exact A2|].
      simpl. split; apply Qle_refl.
  - apply (bounded_admits _ _ (curTime s2)); [|apply Qle_refl].
    apply (advances_bounded s1); [exact Hb1|]. exists new. split; assumption.
Qed.

Lemma zSlice_advances (self : Experiment) (s : Planner) (prev : option Q)
      (zIndex : nat) :
  motionOracleOk self ->
  bounded (table s) (curTime s) ->
  exists s', zSlice self (s, prev) zIndex = Ok (s', Some (zTargetOf self zIndex))
             /\ advances s s'.
Proof.
  intros Hor Hb.
  assert (H : exists mt st,
             match prev with
             | Some a => zMovementTime self a (zTargetOf self zIndex) = Ok (mt, st)
             | None => mt = 0 /\ st = 0
             end /\ 0 <= mt /\ 0 <= st).
  { destruct prev as [a|].
    - destruct (Hor a (zTargetOf self zIndex)) as [mt [st H]].
      exists mt, st. exact H.
    - exists 0, 0. repeat split; apply Qle_refl. }
  destruct H as [mt [st [H1 [H2 H3]]]].
  destruct (zSlice_spec self s prev zIndex mt st H1 H2 H3 Hb)
    as [s' [rest [E [Et A]]]].
  exists s'. split; [exact E|].
  eexists. split; [exact Et|]. simpl. split; [lra|].
  apply (ascending_weaken _ _ _ _ _ A); [lra | apply Qle_refl].
Qed.

Lemma zLoop_advances (self : Experiment) (l : list nat) :
  motionOracleOk self ->
  forall s prev, bounded (table s) (curTime s) ->
    exists s' prev', foldM (zSlice self) l (s, prev) = Ok (s', prev')
                     /\ advances s s'.
Proof.
  intros Hor. induction l as [|z l IH]; intros s prev Hb; cbn [foldM].
  - exists s, prev. split; [reflexivity | apply advances_refl].
  - destruct (zSlice_advances self s prev z Hor Hb) as [s1 [E1 A1]].
    rewrite E1. cbn [bind].
    destruct (IH s1 (Some (zTargetOf self z)) (advances_bounded _ _ Hb A1))
      as [s2 [prev' [E2 A2]]].
    exists s2, prev'. split; [exact E2 | apply (advances_trans _ _ _ A1 A2)].
Qed.

(** ** The three phases *)

Lemma resetPhase_advances (self : Experiment) (counts : ImageCount) :
  0 <= getResetTime self
         (filter (fun camera => negb (cameraToIsReady self camera))
                 (cameras self)) ->
  exists s, resetPhase self counts = Ok s
            /\ advances (mkPlanner [] 0 counts) s.
Proof.
  intros H. unfold resetPhase.
  destruct (filter _ (cameras self)) as [|cam cams] eqn:E.
  - eexists. split; [reflexivity | apply advances_refl].
  - unfold resetCams.
    rewrite (foldM_addAction HCamera (fun _ => SetDigital true))
      by (intros x _ a []).
    simpl. eexists. split; [reflexivity|].
    eexists. simpl. split; [reflexivity|]. split; [apply Qle_refl|].
    apply (ascending_weaken 0 0 0);
      [apply (ascending_sentTo HCamera (fun _ => SetDigital true))
      | apply Qle_refl | lra].
Qed.

Lemma slicePhase_advances (self : Experiment) (s : Planner) :
  motionOracleOk self -> ~ sliceHeight self == 0 ->
  bounded (table s) (curTime s) ->
  exists s' prev, slicePhase self s = Ok (s', prev) /\ advances s s'.
Proof.
  intros Hor Hsh Hb. unfold slicePhase, zIndices, numZSlices.
  destruct (Qeq_bool (sliceHeight self) 0) eqn:E.
  - apply Qeq_bool_eq in E. contradiction.
  - cbn [bind]. apply zLoop_advances; assumption.
Qed.

Lemma getTimeWhenCameraCanExpose_snoc (self : Experiment) (t : ActionTable)
      (a : Action) (cam : Camera) :
  target a <> HCamera cam ->
  getTimeWhenCameraCanExpose self (t ++ [a]) cam
  = getTimeWhenCameraCanExpose self t cam.
Proof.
  intros H. unfold getTimeWhenCameraCanExpose.
  rewrite getLastActionFor_other by exact H. reflexivity.
Qed.

Lemma zHandler_not_camera (self : Experiment) (cam : Camera) :
  zHandler self <> HCamera cam.
Proof. unfold zHandler. destruct (zPositioner self); discriminate. Qed.

Lemma cameraReadyTime_snoc (self : Experiment) (t : ActionTable) (a : Action) :
  (forall cam, target a <> HCamera cam) ->
  cameraReadyTime self (t ++ [a]) = cameraReadyTime self t.
Proof.
  intros H. unfold cameraReadyTime.
  destruct (1 <? numReps self)%Z; [|reflexivity].
  generalize 0 as acc.
  induction (exposureSettings self) as [|[cams lts] l IH]; intros acc; simpl;
    [reflexivity|].
  rewrite IH. f_equal. clear IH. revert acc.
  induction cams as [|cam cams IH]; intros acc; simpl; [reflexivity|].
  rewrite getTimeWhenCameraCanExpose_snoc by apply H. apply IH.
Qed.

Lemma returnPhase_spec (self : Experiment) (s : Planner) (mt st : Time) :
  zMovementTime self (zHeight self) 0 = Ok (mt, st) ->
  0 <= mt -> 0 <= st ->
  bounded (table s) (curTime s) ->
  returnPhase self s
  = Ok (mkPlanner (table s ++ [returnMove self (curTime s) mt;
                               finalHold self (table s) (curTime s) mt st])
                  (curTime s + mt) (imageCount s)).
Proof.
  intros E Hmt Hst Hb. unfold returnPhase. rewrite E. cbn [bind].
  rewrite addAction_admits by (apply (bounded_admits _ _ _ _ Hb); lra).
  cbn [bind].
  rewrite cameraReadyTime_snoc
    by (intros cam; simpl; apply zHandler_not_camera).
  rewrite addAction_admits.
  - cbn [bind]. rewrite <- app_assoc. reflexivity.
  - apply (bounded_admits _ _ (curTime s + mt)).
    + apply (bounded_app _ _ (curTime s)); [exact Hb|]. simpl. split; lra.
    + apply Qle_trans with (curTime s + mt + st); [lra | apply pymax_l].
Qed.

(** Whatever the oracle says, a return phase that completes appended the
    return move and the final hold, taken from the oracle's answer for the
    move from [zHeight] to [0]. *)
Lemma returnPhase_inv (self : Experiment) (s s' : Planner) :
  returnPhase self s = Ok s' ->
  exists mt st,
    zMovementTime self (zHeight self) 0 = Ok (mt, st)
    /\ table s' = table s ++ [returnMove self (curTime s) mt;
                              finalHold self (table s) (curTime s) mt st]
    /\ imageCount s' = imageCount s.
Proof.
  unfold returnPhase. intros H.
  destruct (zMovementTime self (zHeight self) 0) as [[mt st]|e];
    cbn [bind] in H; [|discriminate].
  exists mt, st. split; [reflexivity|].
  destruct (addAction (curTime s + mt) _ _ (table s)) as [t1|e] eqn:E1;
    cbn [bind] in H; [|discriminate].
  apply addAction_inv in E1. subst t1.
  rewrite cameraReadyTime_snoc in H
    by (intros cam; simpl; apply zHandler_not_camera).
  destruct (addAction _ _ _ (table s ++ _)) as [t2|e] eqn:E2;
    cbn [bind] in H; [|discriminate].
  apply addAction_inv in E2. subst t2. injection H as <-.
  simpl. rewrite <- app_assoc. split; reflexivity.
Qed.

(** The planner as a whole, for an oracle that answers with non-negative
    times: it completes, and the entries of its table are in non-decreasing
    timestamp order. *)
Lemma generateActions_ascending (self : Experiment) (counts : ImageCount) :
  motionOracleOk self -> ~ sliceHeight self == 0 ->
  0 <= getResetTime self
         (filter (fun camera => negb (cameraToIsReady self camera))
                 (cameras self)) ->
  exists t counts' hi,
    generateActions self counts = Ok (t, counts') /\ ascending 0 t hi.
Proof.
  intros Hor Hsh Hreset. unfold generateActions.
  destruct (resetPhase_advances self counts Hreset) as [s0 [E0 A0]].
  rewrite E0. cbn [bind].
  assert (Hb0 : bounded (table s0) (curTime s0))
    by (apply (advances_bounded (mkPlanner [] 0 counts));
        [apply bounded_nil | exact A0]).
  destruct (slicePhase_advances self s0 Hor Hsh Hb0) as [s1 [prev [E1 A1]]].
  rewrite E1. cbn [bind].
  assert (Hb1 : bounded (table s1) (curTime s1))
    by (apply (advances_bounded _ _ Hb0 A1)).
  destruct (Hor (zHeight self) 0) as [mt [st [E2 [Hmt Hst]]]].
  rewrite (returnPhase_spec self s1 mt st E2 Hmt Hst Hb1). cbn [bind].
  exists (table s1 ++ [returnMove self (curTime s1) mt;
                       finalHold self (table s1) (curTime s1) mt st]),
    (imageCount s1),
    (timestamp (finalHold self (table s1) (curTime s1) mt st)).
  split; [reflexivity|].
  destruct (advances_trans _ _ _ A0 A1) as [new [Et A]]. simpl in Et, A.
  apply (ascending_app _ (curTime s1)); [rewrite Et; exact A|].
  simpl. split; [lra|]. split; [|apply Qle_refl].
  apply Qle_trans with (curTime s1 + mt + st); [lra | apply pymax_l].
Qed.

(** * The claims *)

(** ** C1: when the Z move is scheduled *)

(** C1, as stated, fails: with the planner at cursor 100 and the stage at
    altitude 0, the slice that moves to altitude 10 (oracle: move 20, settle
    5) appends its [MoveAbsolute 10] at 120, the cursor after the move time
    was added, and appends nothing at the pre-move cursor 100. *)
Lemma zSlice_move_not_at_premove_cursor :
  exists s',
    zSlice stagePlan (mkPlanner [] 100 noCounts, Some 0) 1%nat
    = Ok (s', Some 10)
    /\ table s' = [mkAction 120 (HPositioner 2%nat) (MoveAbsolute 10);
                   mkAction 125 (HLight 0%nat) (SetDigital true);
                   mkAction 125 (HCamera 0%nat) (SetDigital true);
                   mkAction 190 (HPositioner 2%nat) (MoveAbsolute 10)]
    /\ ~ (exists a, In a (table s') /\ timestamp a == 100).
Proof.
  eexists. split; [vm_compute; reflexivity|]. split; [reflexivity|].
  intros [a [Hin Ht]]. simpl in Hin.
  destruct Hin as [<- | [<- | [<- | [<- | []]]]]; simpl in Ht;
    discriminate Ht.
Qed.

(** C1, amended: in a slice that has a previous altitude, the [MoveAbsolute]
    for the Z move is appended at the cursor advanced by the move time
    (the time the move ends), and every entry appended after it in that slice
    is no earlier than that time plus the settle time.  For
    (moveTime, settleTime) = (20, 5) and a slice starting at cursor [c]: the
    entry is at [c + 20] and nothing later in the slice is before [c + 25]. *)
Theorem zSlice_move_at_end_of_motion (self : Experiment) (s : Planner)
        (prev : Q) (zIndex : nat) (mt st : Time) :
  zMovementTime self prev (zTargetOf self zIndex) = Ok (mt, st) ->
  0 <= mt -> 0 <= st ->
  bounded (table s) (curTime s) ->
  exists s' rest,
    zSlice self (s, Some prev) zIndex = Ok (s', Some (zTargetOf self zIndex))
    /\ table s'
       = table s
         ++ mkAction (curTime s + mt) (zHandler self)
                     (MoveAbsolute (zTargetOf self zIndex)) :: rest
    /\ Forall (fun a => curTime s + mt + st <= timestamp a) rest
    /\ curTime s + mt + st <= curTime s'.
Proof.
  intros E Hmt Hst Hb.
  destruct (zSlice_spec self s (Some prev) zIndex mt st E Hmt Hst Hb)
    as [s' [rest [Es [Et A]]]].
  exists s', rest. split; [exact Es|]. split; [exact Et|]. split.
  - apply ascending_Forall in A.
    apply (Forall_impl _ (P := fun a => curTime s + mt + st <= timestamp a
                                        <= curTime s')); [|exact A].
    intros a [H _]. exact H.
  - apply (ascending_le _ _ _ A).
Qed.

Lemma zSlice_move_at_end_of_motion_witness :
  exists s' rest,
    zSlice stagePlan (mkPlanner [] 100 noCounts, Some 0) 1%nat
    = Ok (s', Some (zTargetOf stagePlan 1))
    /\ table s'
       = [] ++ mkAction (100 + 20) (zHandler stagePlan)
                        (MoveAbsolute (zTargetOf stagePlan 1)) :: rest
    /\ Forall (fun a => 100 + 20 + 5 <= timestamp a) rest
    /\ 100 + 20 + 5 <= curTime s'.
Proof.
  apply (zSlice_move_at_end_of_motion stagePlan (mkPlanner [] 100 noCounts)
                                      0 1%nat 20 5).
  - reflexivity.
  - unfold Qle; simpl; lia.
  - unfold Qle; simpl; lia.
  - intros a [].
Defined.

(** ** C2 and C9: [expose] *)

(** C2: when the table admits appends at [c] for the lights and the cameras
    (the in-order condition of the table's append), [expose] sends
    [SetDigital true] at exactly [c] to every light and then to every camera,
    and returns [max(L, c + D)], with [D] the maximum of exposure time plus
    gap over the cameras and [L] the maximum of the cameras' earliest
    available times read from the table as it was on entry. *)
Theorem expose_commands_at_cursor_returns_end (self : Experiment) (c : Time)
        (cams : list Camera) (t : ActionTable) (counts : ImageCount) :
  (forall l, In l (lights self) -> admits t (HLight l) c) ->
  (forall cam, In cam cams -> admits t (HCamera cam) c) ->
  let D := maximum (map (fun cam => getExposureTime self cam
                                    + getTimeBetweenExposures self cam) cams) in
  let L := maximum (map (getTimeWhenCameraCanExpose self t) cams) in
  expose self c cams t counts
  = Ok (Qmax L (c + D),
        t ++ sentTo HLight (fun _ => SetDigital true) c (lights self)
          ++ sentTo HCamera (fun _ => SetDigital true) c cams,
        fold_left increment cams counts).
Proof. intros Hl Hc D L. apply expose_spec; assumption. Qed.

(** A camera triggered at 0 is busy until 60; exposing again at 10 still
    sends the commands at 10 and returns 70. *)
Lemma expose_commands_at_cursor_returns_end_witness :
  expose stagePlan 10 [0%nat] [mkAction 0 (HCamera 0%nat) (SetDigital true)]
         noCounts
  = Ok (Qmax (maximum [0 + (50 + 10)]) (10 + maximum [50 + 10]),
        [mkAction 0 (HCamera 0%nat) (SetDigital true);
         mkAction 10 (HLight 0%nat) (SetDigital true);
         mkAction 10 (HCamera 0%nat) (SetDigital true)],
        fold_left increment [0%nat] noCounts).
Proof.
  apply (expose_commands_at_cursor_returns_end
           stagePlan 10 [0%nat] [mkAction 0 (HCamera 0%nat) (SetDigital true)]
           noCounts).
  - intros l _ a [<- | []] Ht. discriminate Ht.
  - intros cam _ a [<- | []] _. unfold Qle; simpl; lia.
Defined.

(** C9: with no cameras, [expose] at a cursor [c] (a time, so not negative)
    returns [c], appends one [SetDigital true] at [c] per light and nothing
    else, and leaves the image counters as they were. *)
Theorem expose_without_cameras (self : Experiment) (c : Time)
        (t : ActionTable) (counts : ImageCount) :
  0 <= c ->
  (forall l, In l (lights self) -> admits t (HLight l) c) ->
  exists r,
    expose self c [] t counts
    = Ok (r, t ++ sentTo HLight (fun _ => SetDigital true) c (lights self),
          counts)
    /\ r == c.
Proof.
  intros Hc Hl. exists (Qmax 0 (c + 0)). split.
  - rewrite expose_spec by (assumption || intros cam []).
    simpl. rewrite app_nil_r. reflexivity.
  - rewrite Q.max_r by lra. lra.
Qed.

Lemma expose_without_cameras_witness :
  exists r,
    expose stagePlan 65 [] [mkAction 0 (HLight 0%nat) (SetDigital true)] noCounts
    = Ok (r, [mkAction 0 (HLight 0%nat) (SetDigital true)]
             ++ sentTo HLight (fun _ => SetDigital true) 65 (lights stagePlan),
          noCounts)
    /\ r == 65.
Proof.
  apply (expose_without_cameras stagePlan 65
           [mkAction 0 (HLight 0%nat) (SetDigital true)] noCounts).
  - unfold Qle; simpl; lia.
  - intros l _ a [<- | []] _. unfold Qle; simpl; lia.
Defined.

(** ** C5: per-resource monotonicity *)

(** C5: for a plan whose oracle answers every query with non-negative times
    (and that has a stage and a non-zero slice height, so that a table is
    returned at all), [generateActions] returns a table in which the
    timestamps of the entries of each resource, in append order, never
    decrease. *)
Theorem generateActions_monotone_per_resource (self : Experiment)
        (counts : ImageCount) :
  motionOracleOk self ->
  ~ sliceHeight self == 0 ->
  0 <= getResetTime self
         (filter (fun camera => negb (cameraToIsReady self camera))
                 (cameras self)) ->
  exists t counts',
    generateActions self counts = Ok (t, counts')
    /\ forall h, nondecreasing (timestampsFor h t).
Proof.
  intros Hor Hsh Hreset.
  destruct (generateActions_ascending self counts Hor Hsh Hreset)
    as [t [counts' [hi [E A]]]].
  exists t, counts'. split; [exact E|].
  intros h. unfold timestampsFor, entriesFor.
  apply (ascending_nondecreasing 0 hi). apply ascending_filter. exact A.
Qed.

Lemma generateActions_monotone_per_resource_witness :
  exists t counts',
    generateActions stagePlan noCounts = Ok (t, counts')
    /\ forall h, nondecreasing (timestampsFor h t).
Proof.
  apply (generateActions_monotone_per_resource stagePlan noCounts).
  - intros a b. exists 20, 5. split; [reflexivity|].
    split; unfold Qle; simpl; lia.
  - intros H. discriminate H.
  - unfold Qle; simpl; lia.
Defined.

(** ** C3: the number of Z slices *)



Lemma numZSlices_defined (self : Experiment) :
  ~ sliceHeight self == 0 ->
  numZSlices self
  = Ok (if Qltb (1 / 1000000) (zHeight self)
        then (Qceiling (zHeight self / sliceHeight self) + 1)%Z
        else Qceiling (zHeight self / sliceHeight self)).
Proof.
  intros H. unfold numZSlices.
  destruct (Qeq_bool (sliceHeight self) 0) eqn:E; [|reflexivity].
  apply Qeq_bool_eq in E. contradiction.
Qed.




(** ** C7: the stage axis oracle *)





(** ** C4: the two-angle scenario *)

(** C4, as stated, fails: with [zHeight = 0] the slice loop does not run, so
    the table holds no trigger at all, only the return move and the final
    hold, the latter at 10. *)
Lemma two_angles_zero_height_no_trigger :
  exists t counts,
    generateActions (twoAnglePlan (stageAxisHandler defaultAxis 2) 0) noCounts
    = Ok (t, counts)
    /\ map target t = [HPositioner 2%nat; HPositioner 2%nat]
    /\ timestampsFor (HLight 0%nat) t = []
    /\ timestampsFor (HCamera 0%nat) t = []
    /\ Forall (fun a => timestamp a <= 10) t.
Proof.
  eexists _, _. split; [vm_compute; reflexivity|].
  split; [reflexivity|]. split; [reflexivity|]. split; [reflexivity|].
  repeat constructor; simpl; discriminate.
Qed.

(** C4, amended: the same plan with the height of a single slice
    ([zHeight = 1e-6], which is not above the threshold for an extra slice):
    the table holds exactly two light-plus-camera trigger pairs, at 0 and at
    65, and ends with the final hold, at 130 or later. *)
Theorem two_angles_one_slice (mt st : Time) :
  0 <= mt -> 0 <= st ->
  let plan := twoAnglePlan (constantStage mt st) (1 / 1000000) in
  let slice := [mkAction 0 (HPositioner 2%nat) (MoveAbsolute 0);
                mkAction 0 (HLight 0%nat) (SetDigital true);
                mkAction 0 (HCamera 0%nat) (SetDigital true);
                mkAction 65 (HLight 0%nat) (SetDigital true);
                mkAction 65 (HCamera 0%nat) (SetDigital true);
                mkAction 130 (HPositioner 2%nat) (MoveAbsolute 0)] in
  exists counts hold,
    generateActions plan noCounts
    = Ok (slice ++ [returnMove plan 130 mt; hold], counts)
    /\ timestampsFor (HLight 0%nat) (slice ++ [returnMove plan 130 mt; hold])
       = [0; 65]
    /\ timestampsFor (HCamera 0%nat) (slice ++ [returnMove plan 130 mt; hold])
       = [0; 65]
    /\ target hold = HPositioner 2%nat
    /\ payload hold = MoveAbsolute 0
    /\ 125 <= timestamp hold.
Proof.
  intros Hmt Hst plan slice.
  assert (E1 : exists counts,
             (s0 <- resetPhase plan noCounts ;; slicePhase plan s0)
             = Ok (mkPlanner slice 130 counts, Some 0)).
  { eexists. vm_compute. reflexivity. }
  destruct E1 as [counts E1].
  exists counts, (finalHold plan slice 130 mt st).
  split; [|split; [|split; [|split; [|split]]]]; try reflexivity.
  - unfold generateActions.
    destruct (resetPhase plan noCounts) as [s0|e]; cbn [bind] in E1 |- *;
      [|discriminate].
    rewrite E1. cbn [bind].
    rewrite (returnPhase_spec plan _ mt st); try assumption; try reflexivity.
    intros a Hin. simpl in Hin.
    destruct Hin as [<- | [<- | [<- | [<- | [<- | [<- | []]]]]]];
      unfold Qle; simpl; lia.
  - apply Qle_trans with (130 + mt + st); [lra | apply pymax_l].
Qed.

Lemma two_angles_one_slice_witness :
  let plan := twoAnglePlan (constantStage 0 10) (1 / 1000000) in
  let slice := [mkAction 0 (HPositioner 2%nat) (MoveAbsolute 0);
                mkAction 0 (HLight 0%nat) (SetDigital true);
                mkAction 0 (HCamera 0%nat) (SetDigital true);
                mkAction 65 (HLight 0%nat) (SetDigital true);
                mkAction 65 (HCamera 0%nat) (SetDigital true);
                mkAction 130 (HPositioner 2%nat) (MoveAbsolute 0)] in
  exists counts hold,
    generateActions plan noCounts
    = Ok (slice ++ [returnMove plan 130 0; hold], counts)
    /\ timestampsFor (HLight 0%nat) (slice ++ [returnMove plan 130 0; hold])
       = [0; 65]
    /\ timestampsFor (HCamera 0%nat) (slice ++ [returnMove plan 130 0; hold])
       = [0; 65]
    /\ target hold = HPositioner 2%nat
    /\ payload hold = MoveAbsolute 0
    /\ 125 <= timestamp hold.
Proof.
  apply (two_angles_one_slice 0 10); unfold Qle; simpl; lia.
Defined.

(** ** C6 and C10: the return phase *)

(** C6: the return phase is to move the stage back to the start, so it has to
    time the travel from the altitude the last slice left it at back to
    [zStart], the way the slice loop times each of its moves from the previous
    altitude to the next target.  The code asks the oracle about the move from
    [zHeight] to 0 instead.  On [unevenPlan] the slices end at altitude 104,
    the move from there back to the start at 100 takes 4, and the return phase
    advances the cursor by 3, the time of a move from 3 to 0: the return
    command is stamped before the stage can have arrived. *)
Lemma returnPhase_not_from_final_altitude :
  exists s1 s2,
    (s0 <- resetPhase unevenPlan noCounts ;; slicePhase unevenPlan s0)
    = Ok (s1, Some 104)
    /\ returnPhase unevenPlan s1 = Ok s2
    /\ generateActions unevenPlan noCounts = Ok (table s2, imageCount s2)
    /\ zMovementTime unevenPlan 104 (zStart unevenPlan) = Ok (4, 10)
    /\ zMovementTime unevenPlan (zHeight unevenPlan) 0 = Ok (3, 10)
    /\ curTime s2 == curTime s1 + 3
    /\ ~ curTime s2 == curTime s1 + 4.
Proof.
  eexists _, _.
  split; [vm_compute; reflexivity|].
  split; [vm_compute; reflexivity|].
  split; [vm_compute; reflexivity|].
  split; [reflexivity|]. split; [reflexivity|].
  split; [reflexivity|]. intros H. discriminate H.
Qed.

Lemma fold_left_pymax_Qmax (f : Camera -> Time) (cams : list Camera)
      (acc : Time) :
  fold_left (fun acc camera => pymax acc (f camera)) cams acc
  = fold_left Qmax (map f cams) acc.
Proof.
  revert acc. induction cams as [|cam cams IH]; intros acc; simpl;
    [reflexivity|].
  rewrite IH, pymax_Qmax. reflexivity.
Qed.

(** [cameraReadyTime] is the maximum of the earliest available times of the
    cameras of the exposure settings when there is more than one repetition,
    and zero otherwise. *)
Lemma cameraReadyTime_maximum (self : Experiment) (t : ActionTable) :
  cameraReadyTime self t
  = if (1 <? numReps self)%Z
    then maximum (map (getTimeWhenCameraCanExpose self t)
                      (flat_map fst (exposureSettings self)))
    else 0.
Proof.
  unfold cameraReadyTime, maximum.
  destruct (1 <? numReps self)%Z; [|reflexivity].
  generalize 0 as acc.
  induction (exposureSettings self) as [|[cams lts] l IH]; intros acc; simpl;
    [reflexivity|].
  rewrite IH, map_app, fold_left_app, fold_left_pymax_Qmax. reflexivity.
Qed.



(** ** C8: determinism *)

Lemma agree_bind {A B A' B' : Type} (R : A -> A' -> Prop) (S : B -> B' -> Prop)
      (m : result A) (m' : result A') (k : A -> result B)
      (k' : A' -> result B') :
  agree R m m' ->
  (forall a a', R a a' -> agree S (k a) (k' a')) ->
  agree S (bind m k) (bind m' k').
Proof.
  intros Hm Hk. destruct m as [a|e], m' as [a'|e']; simpl in *;
    try contradiction.
  - apply Hk. exact Hm.
  - exact Hm.
Qed.

Lemma agree_foldM {S S' A : Type} (R : S -> S' -> Prop)
      (f : S -> A -> result S) (g : S' -> A -> result S') (l : list A) :
  (forall s s' x, R s s' -> agree R (f s x) (g s' x)) ->
  forall s s', R s s' -> agree R (foldM f l s) (foldM g l s').
Proof.
  intros H. induction l as [|x l IH]; intros s s' Hs; cbn [foldM].
  - exact Hs.
  - apply (agree_bind R R); [apply H; exact Hs | exact IH].
Qed.

Section Determinism.

Variables self other : Experiment.
Hypothesis Hsame : samePlan self other.

Lemma zHandler_same : zHandler self = zHandler other.
Proof.
  unfold zHandler. pose proof (same_positioner _ _ Hsame) as H.
  destruct (zPositioner self), (zPositioner other); simpl in H;
    try contradiction; [|reflexivity].
  destruct H as [-> _]. reflexivity.
Qed.

Lemma zMovementTime_same (a b : Q) :
  zMovementTime self a b = zMovementTime other a b.
Proof.
  unfold zMovementTime. pose proof (same_positioner _ _ Hsame) as H.
  destruct (zPositioner self), (zPositioner other); simpl in H;
    try contradiction; [|reflexivity].
  destruct H as [_ H]. apply H.
Qed.

Lemma zTargetOf_same (zIndex : nat) :
  zTargetOf self zIndex = zTargetOf other zIndex.
Proof.
  unfold zTargetOf.
  rewrite (same_zStart _ _ Hsame), (same_sliceHeight _ _ Hsame).
  reflexivity.
Qed.

Lemma getTimeWhenCameraCanExpose_same (t : ActionTable) (cam : Camera) :
  getTimeWhenCameraCanExpose self t cam
  = getTimeWhenCameraCanExpose other t cam.
Proof.
  unfold getTimeWhenCameraCanExpose.
  rewrite (same_exposure _ _ Hsame), (same_gap _ _ Hsame). reflexivity.
Qed.

Lemma acquisitionTimes_same (t : ActionTable) (cams : list Camera) :
  acquisitionTimes self t cams = acquisitionTimes other t cams.
Proof.
  rewrite !acquisitionTimes_spec. f_equal; f_equal; apply map_ext; intros cam.
  - rewrite (same_exposure _ _ Hsame), (same_gap _ _ Hsame). reflexivity.
  - apply getTimeWhenCameraCanExpose_same.
Qed.

Lemma triggerCameras_same (c : Time) (cams : list Camera) (t : ActionTable)
      (counts counts' : ImageCount) :
  agree (fun s s' => fst s = fst s')
        (triggerCameras c cams (t, counts))
        (triggerCameras c cams (t, counts')).
Proof.
  unfold triggerCameras.
  apply (agree_foldM (fun s s' : ActionTable * ImageCount => fst s = fst s'));
    [|reflexivity].
  intros [t1 c1] [t2 c2] cam E. simpl in E. subst t2.
  destruct (addAction c (HCamera cam) (SetDigital true) t1); simpl;
    reflexivity.
Qed.

Lemma expose_same (c : Time) (cams : list Camera) (t : ActionTable)
      (counts counts' : ImageCount) :
  agree (fun r r' => fst r = fst r')
        (expose self c cams t counts) (expose other c cams t counts').
Proof.
  unfold expose. rewrite acquisitionTimes_same.
  destruct (acquisitionTimes other t cams) as [m r].
  unfold triggerLights. rewrite (same_lights _ _ Hsame).
  destruct (foldM _ (lights other) t) as [t1|e]; cbn [bind];
    [|reflexivity].
  apply (agree_bind (fun s s' : ActionTable * ImageCount => fst s = fst s'));
    [apply triggerCameras_same|].
  intros [t2 c2] [t2' c2'] E. simpl in E. subst t2'. reflexivity.
Qed.

Lemma sequenceStep_same (s s' : Planner) (i : nat) :
  sameSchedule s s' ->
  agree sameSchedule (sequenceStep self s i) (sequenceStep other s' i).
Proof.
  intros [Et Ec]. unfold sequenceStep. rewrite Et, Ec.
  rewrite (same_slm _ _ Hsame), (same_rotor _ _ Hsame),
    (same_cameras _ _ Hsame).
  destruct (triggerClients (slmHandler other) (curTime s') i (table s'))
    as [t1|e]; cbn [bind]; [|reflexivity].
  destruct (triggerClients (rotorHandler other) (curTime s') i t1)
    as [t2|e]; cbn [bind]; [|reflexivity].
  apply (agree_bind
           (fun r r' : Time * ActionTable * ImageCount => fst r = fst r'));
    [apply expose_same|].
  intros [[c1 t3] n1] [[c1' t3'] n1'] E. simpl in E.
  injection E as -> ->. split; reflexivity.
Qed.

Lemma zSlice_same (sp sp' : Planner * option Q) (zIndex : nat) :
  sameSchedule (fst sp) (fst sp') /\ snd sp = snd sp' ->
  agree (fun r r' => sameSchedule (fst r) (fst r') /\ snd r = snd r')
        (zSlice self sp zIndex) (zSlice other sp' zIndex).
Proof.
  destruct sp as [s prev], sp' as [s' prev']. simpl.
  intros [[Et Ec] Ep]. subst prev'. unfold zSlice.
  rewrite <- zTargetOf_same, <- zHandler_same, Et, Ec,
    <- (same_sequence _ _ Hsame).
  assert (E : match prev with
              | Some p => zMovementTime self p (zTargetOf self zIndex)
              | None => Ok (0, 0)
              end
              = match prev with
                | Some p => zMovementTime other p (zTargetOf self zIndex)
                | None => Ok (0, 0)
                end).
  { destruct prev; [apply zMovementTime_same | reflexivity]. }
  rewrite E.
  destruct (match prev with
            | Some p => zMovementTime other p (zTargetOf self zIndex)
            | None => Ok (0, 0)
            end) as [[mt st]|e]; cbn [bind]; [|reflexivity].
  destruct (addAction (curTime s' + mt) (zHandler self)
                      (MoveAbsolute (zTargetOf self zIndex)) (table s'))
    as [t1|e]; cbn [bind]; [|reflexivity].
  apply (agree_bind sameSchedule).
  - apply agree_foldM; [apply sequenceStep_same | split; reflexivity].
  - intros s1 s1' [Et1 Ec1]. rewrite Et1, Ec1.
    destruct (addAction (curTime s1') (zHandler self)
                        (MoveAbsolute (zTargetOf self zIndex)) (table s1'))
      as [t2|e]; cbn [bind]; [|reflexivity].
    simpl. repeat split; reflexivity.
Qed.

Lemma zIndices_same : zIndices self = zIndices other.
Proof.
  unfold zIndices, numZSlices.
  rewrite (same_sliceHeight _ _ Hsame), (same_zHeight _ _ Hsame).
  reflexivity.
Qed.

Lemma slicePhase_same (s s' : Planner) :
  sameSchedule s s' ->
  agree (fun r r' => sameSchedule (fst r) (fst r') /\ snd r = snd r')
        (slicePhase self s) (slicePhase other s').
Proof.
  intros Hs. unfold slicePhase. rewrite zIndices_same.
  destruct (zIndices other) as [indices|e]; cbn [bind]; [|reflexivity].
  apply (agree_foldM
           (fun r r' : Planner * option Q =>
              sameSchedule (fst r) (fst r') /\ snd r = snd r')).
  - intros sp sp' x H. apply zSlice_same. exact H.
  - split; [exact Hs | reflexivity].
Qed.

Lemma resetPhase_same (counts counts' : ImageCount) :
  agree sameSchedule (resetPhase self counts) (resetPhase other counts').
Proof.
  unfold resetPhase.
  rewrite (same_cameras _ _ Hsame).
  rewrite (filter_ext (fun camera => negb (cameraToIsReady self camera))
                      (fun camera => negb (cameraToIsReady other camera)))
    by (intros c; rewrite (same_ready _ _ Hsame); reflexivity).
  destruct (filter _ (cameras other)) as [|cam cams];
    [split; reflexivity|].
  unfold resetCams. rewrite (same_reset _ _ Hsame).
  destruct (foldM (fun t camera =>
                     addAction 0 (HCamera camera) (SetDigital true) t)
                  (cam :: cams) []) as [t|e]; cbn [bind];
    [split; reflexivity | reflexivity].
Qed.

Lemma cameraReadyTime_same (t : ActionTable) :
  cameraReadyTime self t = cameraReadyTime other t.
Proof.
  rewrite !cameraReadyTime_maximum.
  rewrite (same_numReps _ _ Hsame), (same_settings _ _ Hsame).
  destruct (1 <? numReps other)%Z; [|reflexivity].
  f_equal. apply map_ext. intros cam. apply getTimeWhenCameraCanExpose_same.
Qed.

Lemma returnPhase_same (s s' : Planner) :
  sameSchedule s s' ->
  agree sameSchedule (returnPhase self s) (returnPhase other s').
Proof.
  intros [Et Ec]. unfold returnPhase.
  rewrite zMovementTime_same, zHandler_same, Et, Ec,
    (same_zStart _ _ Hsame), (same_zHeight _ _ Hsame).
  destruct (zMovementTime other (zHeight other) 0) as [[mt st]|e];
    cbn [bind]; [|reflexivity].
  destruct (addAction (curTime s' + mt) (zHandler other)
                      (MoveAbsolute (zStart other)) (table s'))
    as [t1|e]; cbn [bind]; [|reflexivity].
  rewrite cameraReadyTime_same.
  destruct (addAction _ (zHandler other) (MoveAbsolute (zStart other)) t1)
    as [t2|e]; cbn [bind]; [|reflexivity].
  split; reflexivity.
Qed.

Lemma generateActions_same (counts counts' : ImageCount) :
  agree (fun r r' => fst r = fst r')
        (generateActions self counts) (generateActions other counts').
Proof.
  unfold generateActions.
  apply (agree_bind sameSchedule); [apply resetPhase_same|].
  intros s0 s0' H0.
  apply (agree_bind
           (fun r r' : Planner * option Q =>
              sameSchedule (fst r) (fst r') /\ snd r = snd r'));
    [apply slicePhase_same; exact H0|].
  intros [s1 p1] [s1' p1'] [H1 _]. simpl in H1.
  apply (agree_bind sameSchedule); [apply returnPhase_same; exact H1|].
  intros s2 s2' [H2 _]. exact H2.
Qed.

End Determinism.

(** C8: two runs of [generateActions] on the same plan, with timing oracles
    that answer every query alike, end alike, and when they return tables the
    two tables are the same sequence of (timestamp, target, payload) entries;
    the image counters that the runs start from play no part. *)
Theorem generateActions_deterministic (self other : Experiment)
        (counts counts' : ImageCount) :
  samePlan self other ->
  tableOf (generateActions self counts)
  = tableOf (generateActions other counts').
Proof.
  intros H. pose proof (generateActions_same self other H counts counts') as A.
  destruct (generateActions self counts) as [[t c]|e],
           (generateActions other counts') as [[t' c']|e'];
    simpl in *; try contradiction; congruence.
Qed.

Lemma generateActions_deterministic_witness :
  tableOf (generateActions stagePlan noCounts)
  = tableOf (generateActions stagePlanAgain (increment noCounts 0%nat)).
Proof.
  apply (generateActions_deterministic stagePlan stagePlanAgain noCounts
                                       (increment noCounts 0%nat)).
  constructor; try reflexivity.
  - intros c. simpl. destruct (Nat.eqb c 0); reflexivity.
  - simpl. split; [reflexivity|].
    intros x y. destruct (Qeq_bool x y); reflexivity.
Defined.

(** * Beyond the claims: lemmas on the shape of a table *)

(** ** What [expose] and a step append, whenever they return *)

Lemma triggerCameras_inv (c : Time) (cams : list Camera) (t t' : ActionTable)
      (counts counts' : ImageCount) :
  triggerCameras c cams (t, counts) = Ok (t', counts') ->
  t' = t ++ sentTo HCamera (fun _ => SetDigital true) c cams
  /\ counts' = fold_left increment cams counts.
Proof.
  unfold triggerCameras. revert t counts.
  induction cams as [|cam cams IH]; intros t counts H; cbn [foldM] in H.
  - injection H as <- <-. rewrite app_nil_r. split; reflexivity.
  - destruct (addAction c (HCamera cam) (SetDigital true) t) as [t1|e] eqn:E;
      cbn [bind] in H; [|discriminate].
    apply addAction_inv in E. subst t1. apply IH in H. destruct H as [-> ->].
    simpl. rewrite <- app_assoc. split; reflexivity.
Qed.

Lemma expose_inv (self : Experiment) (c r : Time) (cams : list Camera)
      (t t' : ActionTable) (counts counts' : ImageCount) :
  expose self c cams t counts = Ok (r, t', counts') ->
  r = Qmax (maximum (map (getTimeWhenCameraCanExpose self t) cams))
           (c + maximum (map (fun cam => getExposureTime self cam
                                         + getTimeBetweenExposures self cam)
                             cams))
  /\ t' = t ++ sentTo HLight (fun _ => SetDigital true) c (lights self)
            ++ sentTo HCamera (fun _ => SetDigital true) c cams
  /\ counts' = fold_left increment cams counts.
Proof.
  unfold expose. rewrite acquisitionTimes_spec. intros H.
  destruct (triggerLights self c t) as [t1|e] eqn:E1; cbn [bind] in H;
    [|discriminate].
  unfold triggerLights in E1.
  apply (foldM_addAction_inv HLight (fun _ => SetDigital true)) in E1.
  subst t1.
  destruct (triggerCameras c cams _) as [[t2 counts2]|e] eqn:E2;
    cbn [bind] in H; [|discriminate].
  apply triggerCameras_inv in E2. destruct E2 as [-> ->].
  injection H as <- <- <-. rewrite pymax_Qmax, <- app_assoc.
  repeat split; reflexivity.
Qed.

Lemma triggerClients_inv (handler : option Executor) (c : Time) (i : nat)
      (t t' : ActionTable) :
  triggerClients handler c i t = Ok t' ->
  t' = t ++ sentTo (fun h => h) (fun _ => Custom i) c (clientsOf handler).
Proof.
  unfold triggerClients, clientsOf. intros H. destruct handler as [h|].
  - destruct (analogClients h) as [|x l] eqn:E.
    + simpl in H. injection H as <-. rewrite app_nil_r. reflexivity.
    + replace (0 <? length (x :: l))%nat with true in H by reflexivity.
      apply (foldM_addAction_inv (fun h => h) (fun _ => Custom i)) in H.
      exact H.
  - injection H as <-. rewrite app_nil_r. reflexivity.
Qed.

Lemma sequenceStep_inv (self : Experiment) (s s' : Planner) (i : nat) :
  sequenceStep self s i = Ok s' ->
  table s' = table s ++ stepEntries self (curTime s) i
  /\ imageCount s' = fold_left increment (cameras self) (imageCount s)
  /\ curTime s + maximum (map (fun cam => getExposureTime self cam
                                          + getTimeBetweenExposures self cam)
                              (cameras self)) + 5
     <= curTime s'.
Proof.
  unfold sequenceStep. intros H.
  destruct (triggerClients (slmHandler self) _ _ _) as [t1|e] eqn:E1;
    cbn [bind] in H; [|discriminate].
  apply triggerClients_inv in E1. subst t1.
  destruct (triggerClients (rotorHandler self) _ _ _) as [t2|e] eqn:E2;
    cbn [bind] in H; [|discriminate].
  apply triggerClients_inv in E2. subst t2.
  destruct (expose self _ _ _ _) as [[[r t3] counts3]|e] eqn:E3;
    cbn [bind] in H; [|discriminate].
  apply expose_inv in E3. destruct E3 as [-> [-> ->]].
  injection H as <-. cbn [table imageCount curTime]. split; [|split].
  - unfold stepEntries. rewrite <- !app_assoc. reflexivity.
  - reflexivity.
  - apply Qplus_le_l. apply Q.le_max_r.
Qed.

Lemma foldM_measure {S A : Type} (body : S -> A -> result S) (m : S -> nat)
      (k : nat) (l : list A) :
  (forall s x s', body s x = Ok s' -> m s' = (m s + k)%nat) ->
  forall s s', foldM body l s = Ok s' -> m s' = (m s + length l * k)%nat.
Proof.
  intros H. induction l as [|x l IH]; intros s s' E; cbn [foldM] in E.
  - injection E as <-. simpl. lia.
  - destruct (body s x) as [s1|e] eqn:E1; cbn [bind] in E; [|discriminate].
    apply H in E1. apply IH in E. simpl. lia.
Qed.

Lemma foldM_preserves {S A : Type} (body : S -> A -> result S) (P : S -> Prop)
      (l : list A) :
  (forall s x s', In x l -> P s -> body s x = Ok s' -> P s') ->
  forall s s', P s -> foldM body l s = Ok s' -> P s'.
Proof.
  induction l as [|x l IH]; intros H s s' Hs E; cbn [foldM] in E.
  - injection E as <-. exact Hs.
  - destruct (body s x) as [s1|e] eqn:E1; cbn [bind] in E; [|discriminate].
    apply (IH (fun s x' s' Hin => H s x' s' (or_intror Hin)) s1 s');
      [|exact E].
    apply (H s x s1); [left; reflexivity | exact Hs | exact E1].
Qed.

Lemma increment_count (cams : list Camera) (counts : ImageCount)
      (cam : Camera) :
  fold_left increment cams counts cam
  = (counts cam + count_occ Nat.eq_dec cams cam)%nat.
Proof.
  revert counts. induction cams as [|c cams IH]; intros counts; simpl;
    [lia|].
  rewrite IH. unfold increment.
  destruct (Nat.eq_dec c cam) as [->|Hne].
  - rewrite Nat.eqb_refl. lia.
  - assert (E : Nat.eqb cam c = false)
      by (apply Nat.eqb_neq; intros E; apply Hne; symmetry; exact E).
    rewrite E. lia.
Qed.

Lemma stepEntries_length (self : Experiment) (c : Time) (i : nat) :
  length (stepEntries self c i) = stepWidth self.
Proof.
  unfold stepEntries, stepWidth, sentTo.
  rewrite !length_app, !length_map. lia.
Qed.

Lemma stepEntries_planEntry (self : Experiment) (c : Time) (i : nat) :
  (i < length (sequence self))%nat ->
  Forall (planEntry self) (stepEntries self c i).
Proof.
  intros Hi. unfold stepEntries. rewrite !Forall_app.
  repeat split; apply Forall_forall; intros a Ha; unfold sentTo in Ha;
    apply in_map_iff in Ha; destruct Ha as [x [<- Hx]].
  - right. left. exists i. split; [exact Hi|]. split; [reflexivity|].
    simpl. apply in_or_app. left. exact Hx.
  - right. left. exists i. split; [exact Hi|]. split; [reflexivity|].
    simpl. apply in_or_app. right. exact Hx.
  - left. split; [reflexivity|]. left. exists x. split; [exact Hx|reflexivity].
  - left. split; [reflexivity|]. right. exists x.
    split; [exact Hx|reflexivity].
Qed.

(** ** What a slice appends, whenever it returns *)

Lemma zSlice_inv (self : Experiment) (s s' : Planner) (prev prev' : option Q)
      (zIndex : nat) :
  zSlice self (s, prev) zIndex = Ok (s', prev') ->
  exists mt st s1,
    match prev with
    | Some p => zMovementTime self p (zTargetOf self zIndex)
    | None => Ok (0, 0)
    end = Ok (mt, st)
    /\ foldM (sequenceStep self) (seq 0 (length (sequence self)))
             (mkPlanner (table s ++ [mkAction (curTime s + mt) (zHandler self)
                                       (MoveAbsolute (zTargetOf self zIndex))])
                        (curTime s + mt + st) (imageCount s))
       = Ok s1
    /\ s' = mkPlanner (table s1 ++ [mkAction (curTime s1) (zHandler self)
                                      (MoveAbsolute (zTargetOf self zIndex))])
                      (curTime s1) (imageCount s1)
    /\ prev' = Some (zTargetOf self zIndex).
Proof.
  unfold zSlice. intros H.
  destruct (match prev with
            | Some p => zMovementTime self p (zTargetOf self zIndex)
            | None => Ok (0, 0)
            end) as [[mt st]|e]; cbn [bind] in H; [|discriminate].
  exists mt, st.
  destruct (addAction (curTime s + mt) _ _ (table s)) as [t1|e] eqn:E1;
    cbn [bind] in H; [|discriminate].
  apply addAction_inv in E1. subst t1.
  destruct (foldM (sequenceStep self) _ _) as [s1|e] eqn:E2;
    cbn [bind] in H; [|discriminate].
  exists s1.
  destruct (addAction (curTime s1) _ _ (table s1)) as [t2|e] eqn:E3;
    cbn [bind] in H; [|discriminate].
  apply addAction_inv in E3. subst t2. injection H as <- <-.
  repeat split; reflexivity.
Qed.

Lemma sequenceLoop_length (self : Experiment) (s s' : Planner) :
  foldM (sequenceStep self) (seq 0 (length (sequence self))) s = Ok s' ->
  length (table s')
  = (length (table s) + length (sequence self) * stepWidth self)%nat.
Proof.
  intros H.
  assert (Hstep : forall s x s', sequenceStep self s x = Ok s' ->
                    length (table s')
                    = (length (table s) + stepWidth self)%nat).
  { intros s0 x s1 E. apply sequenceStep_inv in E. destruct E as [-> _].
    rewrite length_app, stepEntries_length. reflexivity. }
  rewrite (foldM_measure (sequenceStep self) (fun s => length (table s))
                         (stepWidth self) _ Hstep s s' H).
  rewrite length_seq. reflexivity.
Qed.

Lemma sequenceLoop_count (self : Experiment) (s s' : Planner) (cam : Camera) :
  foldM (sequenceStep self) (seq 0 (length (sequence self))) s = Ok s' ->
  imageCount s' cam
  = (imageCount s cam
     + length (sequence self) * count_occ Nat.eq_dec (cameras self) cam)%nat.
Proof.
  intros H.
  assert (Hstep : forall s x s', sequenceStep self s x = Ok s' ->
                    imageCount s' cam
                    = (imageCount s cam
                       + count_occ Nat.eq_dec (cameras self) cam)%nat).
  { intros s0 x s1 E. apply sequenceStep_inv in E. destruct E as [_ [-> _]].
    apply increment_count. }
  rewrite (foldM_measure (sequenceStep self) (fun s => imageCount s cam)
                         (count_occ Nat.eq_dec (cameras self) cam) _
                         Hstep s s' H).
  rewrite length_seq. reflexivity.
Qed.

Lemma sequenceLoop_entries (self : Experiment) (base : ActionTable)
      (s s' : Planner) :
  (exists new, table s = base ++ new /\ Forall (planEntry self) new) ->
  foldM (sequenceStep self) (seq 0 (length (sequence self))) s = Ok s' ->
  exists new, table s' = base ++ new /\ Forall (planEntry self) new.
Proof.
  apply (foldM_preserves
           (sequenceStep self)
           (fun s => exists new, table s = base ++ new
                                 /\ Forall (planEntry self) new)).
  intros s0 i s1 Hi [new [E F]] H. apply sequenceStep_inv in H.
  destruct H as [-> _]. exists (new ++ stepEntries self (curTime s0) i).
  split; [rewrite E, app_assoc; reflexivity|].
  apply Forall_app. split; [exact F|]. apply stepEntries_planEntry.
  apply in_seq in Hi. lia.
Qed.

Lemma zMove_planEntry (self : Experiment) (c : Time) (zIndex : nat) :
  planEntry self (mkAction c (zHandler self)
                           (MoveAbsolute (zTargetOf self zIndex))).
Proof.
  right. right. split; [reflexivity|]. eexists. split; [reflexivity|].
  right. exists zIndex. reflexivity.
Qed.

Lemma zLoop_shape (self : Experiment) (base : ActionTable) (cam : Camera)
      (l : list nat) :
  forall s s' prev prev',
    (exists new, table s = base ++ new /\ Forall (planEntry self) new) ->
    foldM (zSlice self) l (s, prev) = Ok (s', prev') ->
    (exists new, table s' = base ++ new /\ Forall (planEntry self) new)
    /\ length (table s')
       = (length (table s)
          + length l * (2 + length (sequence self) * stepWidth self))%nat
    /\ imageCount s' cam
       = (imageCount s cam
          + length l * (length (sequence self)
                        * count_occ Nat.eq_dec (cameras self) cam))%nat.
Proof.
  induction l as [|z l IH]; intros s s' prev prev' Hs H; cbn [foldM] in H.
  - injection H as <- <-. split; [exact Hs|]. simpl. split; lia.
  - destruct (zSlice self (s, prev) z) as [[s1 p1]|e] eqn:E1;
      cbn [bind] in H; [|discriminate].
    apply zSlice_inv in E1. destruct E1 as [mt [st [s2 [_ [E2 [-> ->]]]]]].
    assert (Hs2 : exists new, table s2 = base ++ new
                              /\ Forall (planEntry self) new).
    { eapply sequenceLoop_entries; [|exact E2].
      destruct Hs as [new [E F]]. cbn [table]. eexists.
      split; [rewrite E, <- app_assoc; reflexivity|].
      apply Forall_app. split; [exact F|]. constructor; [|constructor].
      apply zMove_planEntry. }
    pose proof (sequenceLoop_length self _ s2 E2) as L2.
    pose proof (sequenceLoop_count self _ s2 cam E2) as C2.
    cbn [table imageCount] in L2, C2. rewrite length_app in L2. simpl in L2.
    apply IH in H.
    + destruct H as [H1 [H2 H3]]. split; [exact H1|].
      cbn [table imageCount] in H2, H3. rewrite length_app in H2.
      simpl in H2. simpl. split; lia.
    + cbn [table]. destruct Hs2 as [new [E F]]. eexists.
      split; [rewrite E, <- app_assoc; reflexivity|].
      apply Forall_app. split; [exact F|]. constructor; [|constructor].
      apply zMove_planEntry.
Qed.

Lemma generateActions_shape (self : Experiment) (counts counts' : ImageCount)
      (t : ActionTable) :
  generateActions self counts = Ok (t, counts') ->
  exists s0 indices new,
    resetPhase self counts = Ok s0
    /\ zIndices self = Ok indices
    /\ t = table s0 ++ new
    /\ Forall (planEntry self) new
    /\ length new
       = (length indices * (2 + length (sequence self) * stepWidth self)
          + 2)%nat
    /\ forall cam,
         counts' cam
         = (imageCount s0 cam
            + length indices
              * (length (sequence self)
                 * count_occ Nat.eq_dec (cameras self) cam))%nat.
Proof.
  unfold generateActions, slicePhase. intros H.
  destruct (resetPhase self counts) as [s0|e]; cbn [bind] in H;
    [|discriminate].
  destruct (zIndices self) as [indices|e]; cbn [bind] in H; [|discriminate].
  destruct (foldM (zSlice self) indices (s0, None)) as [[s1 prev]|e] eqn:E1;
    cbn [bind] in H; [|discriminate].
  destruct (returnPhase self s1) as [s2|e] eqn:E2; cbn [bind] in H;
    [|discriminate].
  injection H as <- <-.
  apply returnPhase_inv in E2. destruct E2 as [mt [st [_ [Et Ec]]]].
  assert (H0 : exists new, table s0 = table s0 ++ new
                           /\ Forall (planEntry self) new).
  { exists []. split; [rewrite app_nil_r; reflexivity | constructor]. }
  exists s0, indices.
  destruct (zLoop_shape self (table s0) 0%nat indices s0 s1 None prev H0 E1)
    as [[new [En Fn]] [Hl _]].
  exists (new ++ [returnMove self (curTime s1) mt;
                  finalHold self (table s1) (curTime s1) mt st]).
  split; [reflexivity|]. split; [reflexivity|]. split; [|split; [|split]].
  - rewrite Et, En, <- app_assoc. reflexivity.
  - apply Forall_app. split; [exact Fn|].
    assert (Hz : forall c, planEntry self
                   (mkAction c (zHandler self) (MoveAbsolute (zStart self)))).
    { intros c. right. right. split; [reflexivity|].
      eexists. split; [reflexivity|]. left. reflexivity. }
    constructor; [apply Hz|]. constructor; [apply Hz|]. constructor.
  - rewrite En, length_app in Hl. rewrite length_app. simpl. lia.
  - intros cam. rewrite Ec.
    destruct (zLoop_shape self (table s0) cam indices s0 s1 None prev H0 E1)
      as [_ [_ Hc]].
    exact Hc.
Qed.

(** ** Camera triggers are never closer than a camera's period *)

Lemma timestampsFor_app (h : Handler) (t t' : ActionTable) :
  timestampsFor h (t ++ t') = timestampsFor h t ++ timestampsFor h t'.
Proof.
  unfold timestampsFor, entriesFor. rewrite filter_app, map_app. reflexivity.
Qed.

Lemma timestampsFor_others (h : Handler) (new : ActionTable) :
  Forall (fun a => target a <> h) new -> timestampsFor h new = [].
Proof.
  unfold timestampsFor, entriesFor.
  induction new as [|a new IH]; intros H; simpl; [reflexivity|].
  inversion H as [|? ? Ha Hn]; subst.
  destruct (handler_eqb (target a) h) eqn:E.
  - apply handler_eqb_true in E. contradiction.
  - apply IH. exact Hn.
Qed.

Lemma timestampsFor_sentTo_other {A : Type} (mk : A -> Handler)
      (p : A -> Payload) (c : Time) (l : list A) (h : Handler) :
  (forall x, In x l -> mk x <> h) ->
  timestampsFor h (sentTo mk p c l) = [].
Proof.
  intros H. apply timestampsFor_others. apply Forall_forall.
  intros a Ha. unfold sentTo in Ha. apply in_map_iff in Ha.
  destruct Ha as [x [<- Hx]]. simpl. apply H. exact Hx.
Qed.

Lemma timestampsFor_sentTo_camera (p : Camera -> Payload) (c : Time)
      (cams : list Camera) (cam : Camera) :
  NoDup cams -> In cam cams ->
  timestampsFor (HCamera cam) (sentTo HCamera p c cams) = [c].
Proof.
  induction cams as [|x cams IH]; intros Hnd Hin; [destruct Hin|].
  inversion Hnd as [|? ? Hx Hnd']; subst.
  unfold timestampsFor, entriesFor. simpl.
  destruct (handler_eqb (HCamera x) (HCamera cam)) eqn:E.
  - apply handler_eqb_true in E. injection E as ->. simpl. f_equal.
    apply (timestampsFor_sentTo_other HCamera p c cams (HCamera cam)).
    intros y Hy Ey. injection Ey as ->. contradiction.
  - destruct Hin as [-> | Hin].
    + rewrite handler_eqb_refl in E. discriminate.
    + apply (IH Hnd' Hin).
Qed.

Lemma spaced_snoc (d y : Time) (l : list Time) :
  spaced d l -> Forall (fun x => x + d <= y) l -> spaced d (l ++ [y]).
Proof.
  induction l as [|x l IH]; intros Hs Hf; simpl.
  - split; constructor.
  - destruct Hs as [Hx Hs]. inversion Hf as [|? ? Hxy Hf']; subst. split.
    + apply Forall_app. split; [exact Hx|]. constructor; [exact Hxy|constructor].
    + apply IH; assumption.
Qed.

Lemma camerasSpaced_others (self : Experiment) (t new : ActionTable)
      (c c' : Time) :
  camerasSpaced self t c ->
  Forall (fun a => forall cam, target a <> HCamera cam) new ->
  c <= c' ->
  camerasSpaced self (t ++ new) c'.
Proof.
  intros H Hn Hc cam Hcam. destruct (H cam Hcam) as [Hs Hf].
  rewrite timestampsFor_app, (timestampsFor_others (HCamera cam) new).
  - rewrite app_nil_r. split; [exact Hs|].
    apply (Forall_impl _ (P := fun x => x + cameraPeriod self cam <= c));
      [|exact Hf].
    intros x Hx. apply Qle_trans with c; assumption.
  - apply (Forall_impl _ (P := fun a => forall cam, target a <> HCamera cam));
      [|exact Hn].
    intros a Ha. apply Ha.
Qed.

Lemma camerasSpaced_step (self : Experiment) (t : ActionTable) (c c' : Time)
      (i : nat) :
  NoDup (cameras self) -> clientsNotCameras self ->
  camerasSpaced self t c ->
  c + maximum (map (fun cam => getExposureTime self cam
                               + getTimeBetweenExposures self cam)
                   (cameras self)) + 5 <= c' ->
  camerasSpaced self (t ++ stepEntries self c i) c'.
Proof.
  intros Hnd Hcl H Hc cam Hcam. destruct (H cam Hcam) as [Hs Hf].
  unfold stepEntries. rewrite !timestampsFor_app.
  rewrite (timestampsFor_sentTo_other (fun h => h))
    by (intros x Hx; apply Hcl; apply in_or_app; left; exact Hx).
  rewrite (timestampsFor_sentTo_other (fun h => h))
    by (intros x Hx; apply Hcl; apply in_or_app; right; exact Hx).
  rewrite (timestampsFor_sentTo_other HLight) by (intros x _; discriminate).
  rewrite (timestampsFor_sentTo_camera _ c _ cam Hnd Hcam). simpl.
  assert (Hd : getExposureTime self cam + getTimeBetweenExposures self cam
               <= maximum (map (fun cam => getExposureTime self cam
                                           + getTimeBetweenExposures self cam)
                               (cameras self))).
  { apply fold_left_Qmax_upper.
    apply (in_map (fun cam => getExposureTime self cam
                              + getTimeBetweenExposures self cam)).
    exact Hcam. }
  pose proof (maximum_nonneg
                (map (fun cam => getExposureTime self cam
                                 + getTimeBetweenExposures self cam)
                     (cameras self))) as H0.
  split.
  - apply spaced_snoc; assumption.
  - apply Forall_app. split.
    + apply (Forall_impl _ (P := fun x => x + cameraPeriod self cam <= c));
        [|exact Hf].
      intros x Hx. apply Qle_trans with c; [exact Hx | lra].
    + constructor; [|constructor]. unfold cameraPeriod. lra.
Qed.

Lemma foldM_invariant {S A : Type} (body : S -> A -> result S)
      (Inv : S -> Prop) (l : list A) :
  (forall s x, Inv s -> exists s', body s x = Ok s' /\ Inv s') ->
  forall s, Inv s -> exists s', foldM body l s = Ok s' /\ Inv s'.
Proof.
  intros H. induction l as [|x l IH]; intros s Hs; cbn [foldM].
  - exists s. split; [reflexivity | exact Hs].
  - destruct (H s x Hs) as [s1 [E1 H1]]. rewrite E1. cbn [bind].
    apply IH. exact H1.
Qed.

Lemma sequenceStep_keepsCameras (self : Experiment) (s : Planner) (i : nat) :
  NoDup (cameras self) -> clientsNotCameras self ->
  keepsCameras self s ->
  exists s', sequenceStep self s i = Ok s' /\ keepsCameras self s'.
Proof.
  intros Hnd Hcl [Hb Hc].
  destruct (sequenceStep_advances self s i Hb) as [s' [E A]].
  exists s'. split; [exact E|]. split; [apply (advances_bounded s); assumption|].
  apply sequenceStep_inv in E. destruct E as [-> [_ Hc']].
  apply camerasSpaced_step; assumption.
Qed.

Lemma zMove_not_camera (self : Experiment) (c : Time) (p : Payload) :
  Forall (fun a => forall cam, target a <> HCamera cam)
         [mkAction c (zHandler self) p].
Proof.
  constructor; [|constructor]. intros cam. apply zHandler_not_camera.
Qed.

Lemma zSlice_keepsCameras (self : Experiment) (s : Planner) (prev : option Q)
      (zIndex : nat) :
  motionOracleOk self -> NoDup (cameras self) -> clientsNotCameras self ->
  keepsCameras self s ->
  exists s' prev',
    zSlice self (s, prev) zIndex = Ok (s', prev') /\ keepsCameras self s'.
Proof.
  intros Hor Hnd Hcl [Hb Hc].
  destruct (zSlice_advances self s prev zIndex Hor Hb) as [s' [E A]].
  exists s', (Some (zTargetOf self zIndex)). split; [exact E|].
  split; [apply (advances_bounded s); assumption|].
  apply zSlice_inv in E. destruct E as [mt [st [s1 [Eo [E1 [-> _]]]]]].
  assert (Hpos : 0 <= mt /\ 0 <= st).
  { destruct prev as [p|].
    - destruct (Hor p (zTargetOf self zIndex)) as [mt' [st' [E' H']]].
      rewrite E' in Eo. injection Eo as <- <-. exact H'.
    - injection Eo as <- <-. split; apply Qle_refl. }
  destruct Hpos as [Hmt Hst].
  set (s0 := mkPlanner _ (curTime s + mt + st) (imageCount s)) in E1.
  assert (H0 : keepsCameras self s0).
  { unfold s0. split; cbn [table curTime].
    - apply (bounded_app _ _ (curTime s)); [exact Hb|]. simpl. split; lra.
    - apply (camerasSpaced_others self _ _ (curTime s));
        [exact Hc | apply zMove_not_camera | lra]. }
  destruct (foldM_invariant (sequenceStep self) (keepsCameras self)
              (seq 0 (length (sequence self)))
              (fun s x => sequenceStep_keepsCameras self s x Hnd Hcl) s0 H0)
    as [s1' [E1' [_ Hc1]]].
  rewrite E1 in E1'. injection E1' as <-. cbn [table curTime].
  apply (camerasSpaced_others self _ _ (curTime s1));
    [exact Hc1 | apply zMove_not_camera | apply Qle_refl].
Qed.

Lemma zLoop_keepsCameras (self : Experiment) (l : list nat) :
  motionOracleOk self -> NoDup (cameras self) -> clientsNotCameras self ->
  forall s prev, keepsCameras self s ->
    exists s' prev',
      foldM (zSlice self) l (s, prev) = Ok (s', prev')
      /\ keepsCameras self s'.
Proof.
  intros Hor Hnd Hcl. induction l as [|z l IH]; intros s prev Hs;
    cbn [foldM].
  - exists s, prev. split; [reflexivity | exact Hs].
  - destruct (zSlice_keepsCameras self s prev z Hor Hnd Hcl Hs)
      as [s1 [p1 [E1 H1]]].
    rewrite E1. cbn [bind]. apply IH. exact H1.
Qed.

Lemma resetPhase_all_ready (self : Experiment) (counts : ImageCount) :
  (forall cam, In cam (cameras self) -> cameraToIsReady self cam = true) ->
  resetPhase self counts = Ok (mkPlanner [] 0 counts).
Proof.
  intros H. unfold resetPhase.
  assert (E : filter (fun camera => negb (cameraToIsReady self camera))
                     (cameras self) = []).
  { induction (cameras self) as [|cam cams IH]; [reflexivity|]. simpl.
    rewrite (H cam (or_introl eq_refl)). simpl.
    apply IH. intros c Hc. apply H. right. exact Hc. }
  rewrite E. reflexivity.
Qed.

(** * Further properties: the planner *)

(** ** The table that [generateActions] returns *)

(** X1: Whatever [generateActions] appends after the reset phase is a trigger
    ([SetDigital true], never [false]) of a light or a camera of the plan, a
    sequence index below the length of the sequence for an analog client of
    the two handlers, or a move of the Z positioner to the start or to a
    slice altitude; no other handler is addressed. *)
Theorem generateActions_appends_plan_entries (self : Experiment)
        (counts counts' : ImageCount) (t : ActionTable) :
  generateActions self counts = Ok (t, counts') ->
  exists s0 new,
    resetPhase self counts = Ok s0
    /\ t = table s0 ++ new
    /\ Forall (planEntry self) new.
Proof.
  intros H. destruct (generateActions_shape self counts counts' t H)
    as [s0 [indices [new [E0 [_ [Et [F _]]]]]]].
  exists s0, new. repeat split; assumption.
Qed.

Lemma generateActions_appends_plan_entries_witness :
  exists t counts',
    generateActions stagePlan noCounts = Ok (t, counts')
    /\ exists s0 new,
         resetPhase stagePlan noCounts = Ok s0
         /\ t = table s0 ++ new
         /\ Forall (planEntry stagePlan) new.
Proof.
  destruct (generateActions stagePlan noCounts) as [[t c]|e] eqn:E.
  - exists t, c. split; [reflexivity|].
    apply (generateActions_appends_plan_entries stagePlan noCounts c t E).
  - vm_compute in E. discriminate E.
Defined.

(** X2: The table is never deduplicated: after the reset phase it grows by two
    entries per slice (the move and the hold), by one entry per step of the
    sequence for every analog client, light and camera, and by the two
    entries of the return phase. *)
Theorem generateActions_table_length (self : Experiment)
        (counts counts' : ImageCount) (t : ActionTable) :
  generateActions self counts = Ok (t, counts') ->
  exists s0 indices,
    resetPhase self counts = Ok s0
    /\ zIndices self = Ok indices
    /\ length t
       = (length (table s0)
          + length indices * (2 + length (sequence self) * stepWidth self)
          + 2)%nat.
Proof.
  intros H. destruct (generateActions_shape self counts counts' t H)
    as [s0 [indices [new [E0 [Ei [Et [_ [L _]]]]]]]].
  exists s0, indices. split; [exact E0|]. split; [exact Ei|].
  rewrite Et, length_app, L. lia.
Qed.

Lemma generateActions_table_length_witness :
  exists t counts',
    generateActions stagePlan noCounts = Ok (t, counts')
    /\ exists s0 indices,
         resetPhase stagePlan noCounts = Ok s0
         /\ zIndices stagePlan = Ok indices
         /\ length t
            = (length (table s0)
               + length indices
                 * (2 + length (sequence stagePlan) * stepWidth stagePlan)
               + 2)%nat.
Proof.
  destruct (generateActions stagePlan noCounts) as [[t c]|e] eqn:E.
  - exists t, c. split; [reflexivity|].
    apply (generateActions_table_length stagePlan noCounts c t E).
  - vm_compute in E. discriminate E.
Defined.

(** X3: The image counter of a camera grows, after the reset phase, by one for
    every slice, every step of the sequence and every occurrence of the
    camera among the cameras of the plan; the counters of other cameras are
    left alone. *)
Theorem generateActions_image_counts (self : Experiment)
        (counts counts' : ImageCount) (t : ActionTable) :
  generateActions self counts = Ok (t, counts') ->
  exists s0 indices,
    resetPhase self counts = Ok s0
    /\ zIndices self = Ok indices
    /\ forall cam,
         counts' cam
         = (imageCount s0 cam
            + length indices
              * (length (sequence self)
                 * count_occ Nat.eq_dec (cameras self) cam))%nat.
Proof.
  intros H. destruct (generateActions_shape self counts counts' t H)
    as [s0 [indices [new [E0 [Ei [_ [_ [_ C]]]]]]]].
  exists s0, indices. repeat split; assumption.
Qed.

Lemma generateActions_image_counts_witness :
  exists t counts',
    generateActions stagePlan noCounts = Ok (t, counts')
    /\ exists s0 indices,
         resetPhase stagePlan noCounts = Ok s0
         /\ zIndices stagePlan = Ok indices
         /\ forall cam,
              counts' cam
              = (imageCount s0 cam
                 + length indices
                   * (length (sequence stagePlan)
                      * count_occ Nat.eq_dec (cameras stagePlan) cam))%nat.
Proof.
  destruct (generateActions stagePlan noCounts) as [[t c]|e] eqn:E.
  - exists t, c. split; [reflexivity|].
    apply (generateActions_image_counts stagePlan noCounts c t E).
  - vm_compute in E. discriminate E.
Defined.

(** X4: No camera is double-booked: when no camera needs a reset, the cameras
    are distinct and no analog client is a camera, the triggers of each
    camera in the returned table are at least its exposure time plus its gap
    plus 5 ms apart. *)
Theorem generateActions_cameras_spaced (self : Experiment)
        (counts : ImageCount) :
  motionOracleOk self ->
  ~ sliceHeight self == 0 ->
  (forall cam, In cam (cameras self) -> cameraToIsReady self cam = true) ->
  NoDup (cameras self) ->
  clientsNotCameras self ->
  exists t counts',
    generateActions self counts = Ok (t, counts')
    /\ forall cam, In cam (cameras self) ->
         spaced (cameraPeriod self cam) (timestampsFor (HCamera cam) t).
Proof.
  intros Hor Hsh Hready Hnd Hcl. unfold generateActions.
  rewrite (resetPhase_all_ready self counts Hready). cbn [bind].
  unfold slicePhase, zIndices. rewrite numZSlices_defined by exact Hsh.
  cbn [bind].
  assert (H0 : keepsCameras self (mkPlanner [] 0 counts)).
  { split; [apply bounded_nil|]. intros cam _. split; constructor. }
  match goal with
  | |- context [foldM (zSlice self) ?l _] =>
      destruct (zLoop_keepsCameras self l Hor Hnd Hcl _ None H0)
        as [s1 [prev [E1 [Hb1 Hc1]]]]
  end.
  rewrite E1. cbn [bind].
  destruct (Hor (zHeight self) 0) as [mt [st [E2 [Hmt Hst]]]].
  rewrite (returnPhase_spec self s1 mt st E2 Hmt Hst Hb1). cbn [bind].
  eexists _, _. split; [reflexivity|]. cbn [table].
  intros cam Hcam.
  assert (Hsp : camerasSpaced self
                  (table s1 ++ [returnMove self (curTime s1) mt;
                                finalHold self (table s1) (curTime s1) mt st])
                  (curTime s1)).
  { apply (camerasSpaced_others self _ _ (curTime s1));
      [exact Hc1 | | apply Qle_refl].
    constructor; [intros c; apply zHandler_not_camera|].
    constructor; [intros c; apply zHandler_not_camera | constructor]. }
  apply (Hsp cam Hcam).
Qed.

Lemma generateActions_cameras_spaced_witness :
  exists t counts',
    generateActions stagePlan noCounts = Ok (t, counts')
    /\ forall cam, In cam (cameras stagePlan) ->
         spaced (cameraPeriod stagePlan cam) (timestampsFor (HCamera cam) t).
Proof.
  apply (generateActions_cameras_spaced stagePlan noCounts).
  - intros a b. exists 20, 5. split; [reflexivity|].
    split; unfold Qle; simpl; lia.
  - intros H. discriminate H.
  - intros cam _. reflexivity.
  - repeat constructor. intros [].
  - intros h cam [].
Defined.

(** X5: Nothing is scheduled before time 0 or after the final hold: the last
    entry of the returned table carries the largest timestamp. *)
Theorem generateActions_within_final_hold (self : Experiment)
        (counts : ImageCount) :
  motionOracleOk self ->
  ~ sliceHeight self == 0 ->
  0 <= getResetTime self
         (filter (fun camera => negb (cameraToIsReady self camera))
                 (cameras self)) ->
  exists prefix hold counts',
    generateActions self counts = Ok (prefix ++ [hold], counts')
    /\ target hold = zHandler self
    /\ payload hold = MoveAbsolute (zStart self)
    /\ Forall (fun a => 0 <= timestamp a <= timestamp hold)
              (prefix ++ [hold]).
Proof.
  intros Hor Hsh Hreset. unfold generateActions.
  destruct (resetPhase_advances self counts Hreset) as [s0 [E0 A0]].
  rewrite E0. cbn [bind].
  assert (Hb0 : bounded (table s0) (curTime s0))
    by (apply (advances_bounded (mkPlanner [] 0 counts));
        [apply bounded_nil | exact A0]).
  destruct (slicePhase_advances self s0 Hor Hsh Hb0) as [s1 [prev [E1 A1]]].
  rewrite E1. cbn [bind].
  assert (Hb1 : bounded (table s1) (curTime s1))
    by (apply (advances_bounded _ _ Hb0 A1)).
  destruct (Hor (zHeight self) 0) as [mt [st [E2 [Hmt Hst]]]].
  rewrite (returnPhase_spec self s1 mt st E2 Hmt Hst Hb1). cbn [bind table].
  exists (table s1 ++ [returnMove self (curTime s1) mt]),
    (finalHold self (table s1) (curTime s1) mt st), (imageCount s1).
  split; [rewrite <- app_assoc; reflexivity|].
  split; [reflexivity|]. split; [reflexivity|].
  apply ascending_Forall.
  destruct (advances_trans _ _ _ A0 A1) as [new [Et A]]. simpl in Et, A.
  assert (Hlast : curTime s1 + mt
                  <= timestamp (finalHold self (table s1) (curTime s1) mt st)).
  { apply Qle_trans with (curTime s1 + mt + st); [lra | apply pymax_l]. }
  apply (ascending_app _ (timestamp
                            (finalHold self (table s1) (curTime s1) mt st))).
  - apply (ascending_app _ (curTime s1)); [rewrite Et; exact A|].
    simpl. split; [lra | exact Hlast].
  - simpl. split; apply Qle_refl.
Qed.

Lemma generateActions_within_final_hold_witness :
  exists prefix hold counts',
    generateActions stagePlan noCounts = Ok (prefix ++ [hold], counts')
    /\ target hold = zHandler stagePlan
    /\ payload hold = MoveAbsolute (zStart stagePlan)
    /\ Forall (fun a => 0 <= timestamp a <= timestamp hold)
              (prefix ++ [hold]).
Proof.
  apply (generateActions_within_final_hold stagePlan noCounts).
  - intros a b. exists 20, 5. split; [reflexivity|].
    split; unfold Qle; simpl; lia.
  - intros H. discriminate H.
  - unfold Qle; simpl; lia.
Defined.

(** X6: A slice height of zero stops [generateActions] before any slice: the
    division raises and no table is returned. *)
Theorem generateActions_zero_slice_height (self : Experiment)
        (counts : ImageCount) :
  sliceHeight self == 0 ->
  exists e, generateActions self counts = Err e.
Proof.
  intros H. unfold generateActions.
  destruct (resetPhase self counts) as [s0|e]; cbn [bind];
    [|exists e; reflexivity].
  unfold slicePhase, zIndices, numZSlices.
  apply Qeq_bool_iff in H. rewrite H. cbn [bind].
  exists ZeroDivisionError. reflexivity.
Qed.

Lemma generateActions_zero_slice_height_witness :
  exists e,
    generateActions (simplePlan 1 (Some (constantStage 20 5)) 0 10 0) noCounts
    = Err e.
Proof.
  apply (generateActions_zero_slice_height
           (simplePlan 1 (Some (constantStage 20 5)) 0 10 0) noCounts).
  reflexivity.
Defined.

(** ** [expose]: the returned time, the counters *)

Lemma lastFrom_none (l : ActionTable) (h : Handler) (acc : option Action) :
  Forall (fun a => target a <> h) l -> lastFrom acc l h = acc.
Proof.
  revert acc. induction l as [|a l IH]; intros acc H; simpl; [reflexivity|].
  inversion H as [|? ? Ha Hl]; subst.
  destruct (handler_eqb (target a) h) eqn:E.
  - apply handler_eqb_true in E. contradiction.
  - apply IH. exact Hl.
Qed.

Lemma lastFrom_sentTo_camera (c : Time) (cams : list Camera) (cam : Camera)
      (acc : option Action) :
  In cam cams ->
  lastFrom acc (sentTo HCamera (fun _ => SetDigital true) c cams) (HCamera cam)
  = Some (mkAction c (HCamera cam) (SetDigital true)).
Proof.
  revert acc. induction cams as [|x cams IH]; intros acc Hin; [destruct Hin|].
  simpl. destruct (in_dec Nat.eq_dec cam cams) as [Hc | Hc].
  - apply IH. exact Hc.
  - destruct Hin as [-> | Hin]; [|contradiction].
    rewrite handler_eqb_refl. apply lastFrom_none.
    apply Forall_forall. intros a Ha. unfold sentTo in Ha.
    apply in_map_iff in Ha. destruct Ha as [y [<- Hy]]. simpl.
    intros E. injection E as ->. contradiction.
Qed.

(** X7: [expose] never returns a time before the cursor, and at the time it
    returns every camera it triggered is free again: the returned time is at
    least the time at which each camera could expose before the call, and at
    least the time at which it can expose next, which is the cursor plus the
    camera's exposure time and gap. *)
Theorem expose_returns_when_cameras_free (self : Experiment) (c : Time)
        (cams : list Camera) (t : ActionTable) (counts : ImageCount) :
  (forall l, In l (lights self) -> admits t (HLight l) c) ->
  (forall cam, In cam cams -> admits t (HCamera cam) c) ->
  exists r t' counts',
    expose self c cams t counts = Ok (r, t', counts')
    /\ c <= r
    /\ forall cam, In cam cams ->
         getTimeWhenCameraCanExpose self t cam <= r
         /\ getTimeWhenCameraCanExpose self t' cam
            = c + (getExposureTime self cam
                   + getTimeBetweenExposures self cam)
         /\ getTimeWhenCameraCanExpose self t' cam <= r.
Proof.
  intros Hl Hc. rewrite (expose_spec self c cams t counts Hl Hc).
  eexists _, _, _. split; [reflexivity|].
  set (D := maximum (map (fun cam => getExposureTime self cam
                                     + getTimeBetweenExposures self cam)
                         cams)).
  set (L := maximum (map (getTimeWhenCameraCanExpose self t) cams)).
  assert (HD : 0 <= D) by apply maximum_nonneg.
  split.
  - apply Qle_trans with (c + D); [lra | apply Q.le_max_r].
  - intros cam Hcam.
    assert (E : getTimeWhenCameraCanExpose self
                  (t ++ sentTo HLight (fun _ => SetDigital true) c
                                (lights self)
                     ++ sentTo HCamera (fun _ => SetDigital true) c cams)
                  cam
                = c + (getExposureTime self cam
                       + getTimeBetweenExposures self cam)).
    { unfold getTimeWhenCameraCanExpose, getLastActionFor.
      rewrite !lastFrom_app, (lastFrom_sentTo_camera c cams cam _ Hcam).
      reflexivity. }
    split; [|split; [exact E|]].
    + apply Qle_trans with L; [|apply Q.le_max_l].
      apply fold_left_Qmax_upper.
      apply (in_map (getTimeWhenCameraCanExpose self t)). exact Hcam.
    + rewrite E. apply Qle_trans with (c + D); [|apply Q.le_max_r].
      assert (getExposureTime self cam + getTimeBetweenExposures self cam
              <= D).
      { apply fold_left_Qmax_upper.
        apply (in_map (fun cam => getExposureTime self cam
                                  + getTimeBetweenExposures self cam)).
        exact Hcam. }
      lra.
Qed.

Lemma expose_returns_when_cameras_free_witness :
  exists r t' counts',
    expose stagePlan 10 [0%nat] [mkAction 0 (HCamera 0%nat) (SetDigital true)]
           noCounts
    = Ok (r, t', counts')
    /\ 10 <= r
    /\ forall cam, In cam [0%nat] ->
         getTimeWhenCameraCanExpose
           stagePlan [mkAction 0 (HCamera 0%nat) (SetDigital true)] cam <= r
         /\ getTimeWhenCameraCanExpose stagePlan t' cam
            = 10 + (getExposureTime stagePlan cam
                    + getTimeBetweenExposures stagePlan cam)
         /\ getTimeWhenCameraCanExpose stagePlan t' cam <= r.
Proof.
  apply (expose_returns_when_cameras_free
           stagePlan 10 [0%nat]
           [mkAction 0 (HCamera 0%nat) (SetDigital true)] noCounts).
  - intros l _ a [<- | []] Ht. discriminate Ht.
  - intros cam _ a [<- | []] _. unfold Qle; simpl; lia.
Defined.

(** X8: Whenever [expose] returns, the counter of every camera has grown by the
    number of times the camera occurs among the cameras exposed, and by
    nothing for a camera that was not exposed. *)
Theorem expose_counts_triggers (self : Experiment) (c r : Time)
        (cams : list Camera) (t t' : ActionTable)
        (counts counts' : ImageCount) :
  expose self c cams t counts = Ok (r, t', counts') ->
  forall cam,
    counts' cam = (counts cam + count_occ Nat.eq_dec cams cam)%nat
    /\ (~ In cam cams -> counts' cam = counts cam)
    /\ length (entriesFor (HCamera cam) t')
       = (length (entriesFor (HCamera cam) t)
          + count_occ Nat.eq_dec cams cam)%nat.
Proof.
  intros H cam. apply expose_inv in H. destruct H as [_ [-> ->]].
  assert (Hc : fold_left increment cams counts cam
               = (counts cam + count_occ Nat.eq_dec cams cam)%nat)
    by apply increment_count.
  split; [exact Hc|]. split.
  - intros Hn. rewrite Hc.
    rewrite (proj1 (count_occ_not_In Nat.eq_dec cams cam) Hn). lia.
  - unfold entriesFor. rewrite !filter_app, !length_app.
    assert (E1 : filter (fun a => handler_eqb (target a) (HCamera cam))
                        (sentTo HLight (fun _ => SetDigital true) c
                                (lights self)) = []).
    { induction (lights self) as [|l ls IH]; [reflexivity|]. simpl.
      destruct (handler_eqb (HLight l) (HCamera cam)) eqn:E; [|exact IH].
      apply handler_eqb_true in E. discriminate E. }
    rewrite E1. simpl. f_equal.
    induction cams as [|x cams IH]; [reflexivity|]. simpl.
    destruct (Nat.eq_dec x cam) as [->|Hne].
    + rewrite handler_eqb_refl. simpl. f_equal. apply IH.
      apply increment_count.
    + destruct (handler_eqb (HCamera x) (HCamera cam)) eqn:E.
      * apply handler_eqb_true in E. injection E as ->. contradiction.
      * apply IH. apply increment_count.
Qed.

Lemma expose_counts_triggers_witness :
  exists r t' counts',
    expose stagePlan 10 [0%nat; 0%nat] [] noCounts = Ok (r, t', counts')
    /\ forall cam,
         counts' cam
         = (noCounts cam + count_occ Nat.eq_dec [0%nat; 0%nat] cam)%nat
         /\ (~ In cam [0%nat; 0%nat] -> counts' cam = noCounts cam)
         /\ length (entriesFor (HCamera cam) t')
            = (length (entriesFor (HCamera cam) [])
               + count_occ Nat.eq_dec [0%nat; 0%nat] cam)%nat.
Proof.
  destruct (expose stagePlan 10 [0%nat; 0%nat] [] noCounts)
    as [[[r t'] c']|e] eqn:E.
  - exists r, t', c'. split; [reflexivity|].
    apply (expose_counts_triggers stagePlan 10 r [0%nat; 0%nat] [] t'
                                  noCounts c' E).
  - vm_compute in E. discriminate E.
Defined.

(** ** How long a plan takes at least *)

Lemma sequenceLoop_cursor (self : Experiment) (w : Time) (l : list nat) :
  (forall s x s', sequenceStep self s x = Ok s' -> curTime s + w <= curTime s') ->
  forall s s', foldM (sequenceStep self) l s = Ok s' ->
    curTime s + inject_Z (Z.of_nat (length l)) * w <= curTime s'.
Proof.
  intros H. induction l as [|x l IH]; intros s s' E; cbn [foldM] in E.
  - injection E as <-. cbn [length]. change (inject_Z (Z.of_nat 0)) with 0.
    rewrite Qmult_0_l, Qplus_0_r. apply Qle_refl.
  - destruct (sequenceStep self s x) as [s1|e] eqn:E1; cbn [bind] in E;
      [|discriminate].
    apply H in E1. apply IH in E.
    cbn [length]. rewrite Nat2Z.inj_succ. unfold Z.succ.
    rewrite inject_Z_plus. change (inject_Z 1) with 1.
    assert (R : (inject_Z (Z.of_nat (length l)) + 1) * w
                == inject_Z (Z.of_nat (length l)) * w + w) by ring.
    rewrite R. lra.
Qed.

Lemma zSlice_cursor (self : Experiment) (s s' : Planner)
      (prev prev' : option Q) (zIndex : nat) :
  motionOracleOk self ->
  zSlice self (s, prev) zIndex = Ok (s', prev') ->
  curTime s + inject_Z (Z.of_nat (length (sequence self))) * stepTime self
  <= curTime s'.
Proof.
  intros Hor H. apply zSlice_inv in H.
  destruct H as [mt [st [s1 [Eo [E1 [-> _]]]]]].
  assert (Hpos : 0 <= mt /\ 0 <= st).
  { destruct prev as [p|].
    - destruct (Hor p (zTargetOf self zIndex)) as [mt' [st' [E' H']]].
      rewrite E' in Eo. injection Eo as <- <-. exact H'.
    - injection Eo as <- <-. split; apply Qle_refl. }
  assert (Hstep : forall s x s', sequenceStep self s x = Ok s' ->
                    curTime s + stepTime self <= curTime s').
  { intros s0 x s2 E. apply sequenceStep_inv in E. destruct E as [_ [_ E]].
    unfold stepTime. lra. }
  pose proof (sequenceLoop_cursor self (stepTime self) _ Hstep _ _ E1) as L.
  rewrite length_seq in L. cbn [curTime] in L |- *. lra.
Qed.

Lemma zLoop_cursor (self : Experiment) (l : list nat) :
  motionOracleOk self ->
  forall s s' prev prev',
    foldM (zSlice self) l (s, prev) = Ok (s', prev') ->
    curTime s
    + inject_Z (Z.of_nat (length l))
      * (inject_Z (Z.of_nat (length (sequence self))) * stepTime self)
    <= curTime s'.
Proof.
  intros Hor. induction l as [|z l IH]; intros s s' prev prev' E;
    cbn [foldM] in E.
  - injection E as <- <-. cbn [length].
    change (inject_Z (Z.of_nat 0)) with 0.
    rewrite Qmult_0_l, Qplus_0_r. apply Qle_refl.
  - destruct (zSlice self (s, prev) z) as [[s1 p1]|e] eqn:E1;
      cbn [bind] in E; [|discriminate].
    apply (zSlice_cursor self _ _ _ _ _ Hor) in E1. apply IH in E.
    cbn [length]. rewrite Nat2Z.inj_succ. unfold Z.succ.
    rewrite inject_Z_plus. change (inject_Z 1) with 1.
    set (w := inject_Z (Z.of_nat (length (sequence self))) * stepTime self)
      in *.
    assert (R : (inject_Z (Z.of_nat (length l)) + 1) * w
                == inject_Z (Z.of_nat (length l)) * w + w) by ring.
    rewrite R. lra.
Qed.

(** X9: A plan takes at least as long as its exposures: the final hold is no
    earlier than the number of slices times the number of steps times the
    time of a step, which is the longest exposure time plus gap among the
    cameras plus 5 ms. *)
Theorem generateActions_lasts_at_least (self : Experiment)
        (counts : ImageCount) :
  motionOracleOk self ->
  ~ sliceHeight self == 0 ->
  0 <= getResetTime self
         (filter (fun camera => negb (cameraToIsReady self camera))
                 (cameras self)) ->
  exists prefix hold counts' indices,
    generateActions self counts = Ok (prefix ++ [hold], counts')
    /\ zIndices self = Ok indices
    /\ inject_Z (Z.of_nat (length indices))
       * (inject_Z (Z.of_nat (length (sequence self))) * stepTime self)
       <= timestamp hold.
Proof.
  intros Hor Hsh Hreset. unfold generateActions.
  destruct (resetPhase_advances self counts Hreset) as [s0 [E0 A0]].
  rewrite E0. cbn [bind].
  assert (Hb0 : bounded (table s0) (curTime s0))
    by (apply (advances_bounded (mkPlanner [] 0 counts));
        [apply bounded_nil | exact A0]).
  pose proof (advances_cursor _ _ A0) as H0. cbn [curTime] in H0.
  destruct (slicePhase_advances self s0 Hor Hsh Hb0) as [s1 [prev [E1 A1]]].
  rewrite E1. cbn [bind].
  assert (Hb1 : bounded (table s1) (curTime s1))
    by (apply (advances_bounded _ _ Hb0 A1)).
  destruct (Hor (zHeight self) 0) as [mt [st [E2 [Hmt Hst]]]].
  rewrite (returnPhase_spec self s1 mt st E2 Hmt Hst Hb1). cbn [bind table].
  unfold slicePhase in E1.
  destruct (zIndices self) as [indices|e]; cbn [bind] in E1; [|discriminate].
  exists (table s1 ++ [returnMove self (curTime s1) mt]),
    (finalHold self (table s1) (curTime s1) mt st), (imageCount s1), indices.
  split; [rewrite <- app_assoc; reflexivity|]. split; [reflexivity|].
  apply (zLoop_cursor self indices Hor) in E1.
  apply Qle_trans with (curTime s1); [lra|].
  apply Qle_trans with (curTime s1 + mt + st); [lra | apply pymax_l].
Qed.

Lemma generateActions_lasts_at_least_witness :
  exists prefix hold counts' indices,
    generateActions stagePlan noCounts = Ok (prefix ++ [hold], counts')
    /\ zIndices stagePlan = Ok indices
    /\ inject_Z (Z.of_nat (length indices))
       * (inject_Z (Z.of_nat (length (sequence stagePlan)))
          * stepTime stagePlan)
       <= timestamp hold.
Proof.
  apply (generateActions_lasts_at_least stagePlan noCounts).
  - intros a b. exists 20, 5. split; [reflexivity|].
    split; unfold Qle; simpl; lia.
  - intros H. discriminate H.
  - unfold Qle; simpl; lia.
Defined.

(** ** The sequence built by [__init__] *)

Lemma nth_error_flat_map_blocks {A B : Type} (g : A -> list B) (p : nat)
      (l : list A) :
  (forall x, length (g x) = p) ->
  forall i j x, nth_error l i = Some x -> (j < p)%nat ->
    nth_error (flat_map g l) (i * p + j) = nth_error (g x) j.
Proof.
  intros Hg. induction l as [|y l IH]; intros i j x Hi Hj.
  - destruct i; discriminate Hi.
  - destruct i as [|i]; simpl in Hi |- *.
    + injection Hi as ->. apply nth_error_app1. rewrite Hg. exact Hj.
    + rewrite nth_error_app2 by (rewrite Hg; lia).
      rewrite Hg. replace (p + i * p + j - p)%nat with (i * p + j)%nat by lia.
      apply IH; assumption.
Qed.

(** X10: The sequence of [__init__] has one entry per angle and phase, angles
    outermost: entry [i * numPhases + j] is angle [i * 180 / numAngles] and
    phase [j * 360 / numPhases], with the wavelength 488e-9. *)
Theorem initSequence_entry (numAngles numPhases i j : nat) :
  (i < numAngles)%nat -> (j < numPhases)%nat ->
  length (initSequence numAngles numPhases) = (numAngles * numPhases)%nat
  /\ nth_error (initSequence numAngles numPhases) (i * numPhases + j)
     = Some (inject_Z (Z.of_nat i) * 180 / inject_Z (Z.of_nat numAngles),
             inject_Z (Z.of_nat j) * 360 / inject_Z (Z.of_nat numPhases),
             488 / 1000000000).
Proof.
  intros Hi Hj. unfold initSequence. split.
  - rewrite <- (length_seq numAngles 0) at 2.
    induction (seq 0 numAngles) as [|x l IH]; [reflexivity|].
    simpl. rewrite length_app, length_map, length_seq, IH. reflexivity.
  - rewrite (nth_error_flat_map_blocks _ numPhases _
               (fun x => eq_trans (length_map _ _) (length_seq _ _))
               i j i).
    + rewrite nth_error_map.
      assert (E : nth_error (seq 0 numPhases) j = Some j).
      { rewrite nth_error_seq.
        destruct (Nat.ltb_spec j numPhases); [reflexivity | lia]. }
      rewrite E. reflexivity.
    + rewrite nth_error_seq.
      destruct (Nat.ltb_spec i numAngles); [reflexivity | lia].
    + exact Hj.
Qed.

Lemma initSequence_entry_witness :
  length (initSequence 3 5) = (3 * 5)%nat
  /\ nth_error (initSequence 3 5) (2 * 5 + 4)
     = Some (inject_Z (Z.of_nat 2) * 180 / inject_Z (Z.of_nat 3),
             inject_Z (Z.of_nat 4) * 360 / inject_Z (Z.of_nat 5),
             488 / 1000000000).
Proof. apply (initSequence_entry 3 5 2 4); lia. Defined.

(** X11: Every angle of the sequence lies in [0, 180) and every phase in
    [0, 360); with no angles or no phases the sequence is empty and nothing
    is divided by zero. *)
Theorem initSequence_ranges (numAngles numPhases : nat) :
  (numAngles = 0%nat \/ numPhases = 0%nat ->
   initSequence numAngles numPhases = [])
  /\ Forall (fun e => 0 <= fst (fst e) /\ fst (fst e) < 180
                      /\ 0 <= snd (fst e) /\ snd (fst e) < 360)
            (initSequence numAngles numPhases).
Proof.
  split.
  - intros [-> | ->]; unfold initSequence; [reflexivity|]. simpl.
    induction (seq 0 numAngles) as [|x l IH]; [reflexivity | exact IH].
  - apply Forall_forall. intros [[a p] w] H. unfold initSequence in H.
    apply in_flat_map in H. destruct H as [i [Hi H]].
    apply in_map_iff in H. destruct H as [j [E Hj]].
    injection E as <- <- _. apply in_seq in Hi. apply in_seq in Hj. simpl.
    assert (B : forall (k n : nat) (m : Q),
               (k < n)%nat -> 0 < m ->
               0 <= inject_Z (Z.of_nat k) * m / inject_Z (Z.of_nat n)
               /\ inject_Z (Z.of_nat k) * m / inject_Z (Z.of_nat n) < m).
    { intros k n m Hk Hm.
      assert (Hn : 0 < inject_Z (Z.of_nat n)).
      { change 0 with (inject_Z 0). rewrite <- Zlt_Qlt. lia. }
      assert (Hk0 : 0 <= inject_Z (Z.of_nat k)).
      { change 0 with (inject_Z 0). rewrite <- Zle_Qle. lia. }
      assert (Hkn : inject_Z (Z.of_nat k) < inject_Z (Z.of_nat n)).
      { rewrite <- Zlt_Qlt. lia. }
      split.
      - apply Qle_shift_div_l; [exact Hn|]. rewrite Qmult_0_l.
        apply Qmult_le_0_compat; [exact Hk0 | lra].
      - apply Qlt_shift_div_r; [exact Hn|].
        rewrite (Qmult_comm m). apply Qmult_lt_r; assumption. }
    destruct (B i numAngles 180) as [B1 B2]; [lia | reflexivity|].
    destruct (B j numPhases 360) as [B3 B4]; [lia | reflexivity|].
    repeat split; assumption.
Qed.

Lemma initSequence_ranges_witness :
  (3%nat = 0%nat \/ 0%nat = 0%nat -> initSequence 3 0 = [])
  /\ Forall (fun e => 0 <= fst (fst e) /\ fst (fst e) < 180
                      /\ 0 <= snd (fst e) /\ snd (fst e) < 360)
            (initSequence 3 0).
Proof. apply (initSequence_ranges 3 0). Defined.

(** * Further properties: the stage axis *)


(** * Further properties: the planner on a stage axis *)




(** X17: A stage axis with a velocity of zero makes every plan fail: the return
    phase always asks for a move time. *)
Theorem generateActions_zero_velocity_fails (self : Experiment)
        (ax : MicroscopeDevice.StageAxis) (index : nat)
        (counts : ImageCount) :
  zPositioner self = Some (stageAxisHandler ax index) ->
  velocityOf ax == 0 ->
  exists e, generateActions self counts = Err e.
Proof.
  intros Hz Hv. unfold generateActions.
  destruct (resetPhase self counts) as [s0|e]; cbn [bind];
    [|exists e; reflexivity].
  destruct (slicePhase self s0) as [[s1 prev]|e]; cbn [bind];
    [|exists e; reflexivity].
  unfold returnPhase, zMovementTime. rewrite Hz.
  unfold stageAxisHandler. cbn [getMovementTime].
  unfold MicroscopeDevice.getMovementTime. fold (velocityOf ax).
  apply Qeq_bool_iff in Hv. rewrite Hv. cbn [bind].
  exists ZeroDivisionError. reflexivity.
Qed.

Lemma generateActions_zero_velocity_fails_witness :
  exists e,
    generateActions
      (simplePlan 1 (Some (stageAxisHandler (axisWithVelocity 0) 2)) 0 10 10)
      noCounts
    = Err e.
Proof.
  apply (generateActions_zero_velocity_fails
           (simplePlan 1 (Some (stageAxisHandler (axisWithVelocity 0) 2))
                       0 10 10)
           (axisWithVelocity 0) 2 noCounts); reflexivity.
Defined.

(** * Further properties: the stage device *)

Section StageInitialize.

Import MicroscopeStage.

Variable stage_name : string.
Variable cfg : Config.
Variable their_axes_map : AxesMap.

Lemma handled_In (names : list string) (name : string) :
  handled names name = true <-> In name names.
Proof.
  unfold handled. rewrite existsb_exists. split.
  - intros [x [Hx E]]. apply String.eqb_eq in E. subst x. exact Hx.
  - intros H. exists name. split; [exact H | apply String.eqb_refl].
Qed.

Lemma firstUnhandled_None (keys names : list string) :
  firstUnhandled keys names = None <-> forall k, In k keys -> In k names.
Proof.
  induction keys as [|k keys IH]; simpl.
  - split; [intros _ k [] | reflexivity].
  - destruct (handled names k) eqn:E.
    + rewrite IH. apply handled_In in E. split.
      * intros H x [<- | Hx]; [exact E | apply H; exact Hx].
      * intros H x Hx. apply H. right. exact Hx.
    + split; [discriminate|]. intros H.
      assert (Hk : handled names k = true)
        by (apply handled_In; apply H; left; reflexivity).
      congruence.
Qed.

(** What the constructor keeps of its arguments. *)
Lemma newAxis_inr (axis : DeviceAxis) (index : nat) (units : Num) (w : Axis) :
  newAxis axis index units stage_name cfg = inr w ->
  _axis w = axis /\ _units_per_micron w = units /\ handler_index w = index
  /\ exists lower upper,
       limits axis = Some (lower, upper)
       /\ divide lower units = inr (fst (handler_limits w))
       /\ divide upper units = inr (snd (handler_limits w)).
Proof.
  unfold newAxis. intros H.
  destruct (limits axis) as [[lower upper]|]; [|discriminate].
  destruct (divide lower units) as [e|lo] eqn:El; [discriminate|].
  destruct (divide upper units) as [e|hi] eqn:Eh; [discriminate|].
  injection H as <-. cbn.
  repeat split. exists lower, upper. repeat split; assumption.
Qed.

(** What one letter does to the progress of the first loop. *)
Lemma configureAxis_inr (st st' : Progress) (letter : AxisLetter) :
  configureAxis stage_name cfg their_axes_map st letter = inr st' ->
  (axis_name cfg letter = None /\ st' = st)
  \/ (exists w their_name,
        axis_name cfg letter = Some their_name
        /\ builtFor stage_name cfg their_axes_map letter w
        /\ st' = (fst st ++ [w], their_name :: snd st)).
Proof.
  unfold configureAxis. intros H.
  destruct (axis_name cfg letter) as [their_name|] eqn:En.
  - right.
    destruct (lookup their_axes_map their_name) as [a|] eqn:El;
      [|discriminate].
    destruct (units_per_micron cfg letter) as [[u|]|] eqn:Eu;
      [|discriminate|discriminate].
    destruct (leq u (Finite 0)) eqn:Eq; [discriminate|].
    destruct (newAxis a (AXIS_MAP letter) u stage_name cfg) as [e|w] eqn:Ew;
      [discriminate|].
    injection H as <-.
    destruct (newAxis_inr _ _ _ _ Ew) as [Ea [Eun _]].
    exists w, their_name. split; [reflexivity|]. split; [|reflexivity].
    exists their_name. rewrite Ea, Eun.
    repeat split; assumption.
  - left. injection H as <-. split; reflexivity.
Qed.

(** The first loop as a whole: the axes appended are those of the letters
    that are configured, in order, and the names handled are theirs. *)
Lemma configureAxes_inr (letters : list AxisLetter) :
  forall st st',
    configureAxes stage_name cfg their_axes_map letters st = inr st' ->
    exists ws,
      fst st' = fst st ++ ws
      /\ Forall2 (builtFor stage_name cfg their_axes_map)
                 (filter (fun letter =>
                            match axis_name cfg letter with
                            | Some _ => true
                            | None => false
                            end) letters)
                 ws
      /\ (forall k, In k (snd st') <->
                    In k (snd st)
                    \/ exists letter, In letter letters
                                      /\ axis_name cfg letter = Some k).
Proof.
  induction letters as [|letter letters IH]; intros st st' H; simpl in H.
  - injection H as <-. exists []. split; [rewrite app_nil_r; reflexivity|].
    split; [constructor|]. intros k. split; [intros Hk; left; exact Hk|].
    intros [Hk | [l [[] _]]]. exact Hk.
  - destruct (configureAxis stage_name cfg their_axes_map st letter)
      as [e|st1] eqn:E1; [discriminate|].
    apply IH in H. destruct H as [ws [Ef [F Hk]]].
    apply configureAxis_inr in E1.
    destruct E1 as [[En ->] | [w [their_name [En [Hb ->]]]]].
    + exists ws. split; [exact Ef|]. simpl. rewrite En. split; [exact F|].
      intros k. rewrite Hk. split.
      * intros [H | [l [Hl El]]]; [left; exact H|].
        right. exists l. split; [right; exact Hl | exact El].
      * intros [H | [l [[<- | Hl] El]]]; [left; exact H | congruence|].
        right. exists l. split; assumption.
    + exists (w :: ws). simpl in Ef. split.
      * rewrite Ef, <- app_assoc. reflexivity.
      * simpl. rewrite En. split; [constructor; assumption|].
        intros k. rewrite Hk. simpl. split.
        -- intros [[<- | H] | [l [Hl El]]].
           ++ right. exists letter. split; [left; reflexivity | exact En].
           ++ left. exact H.
           ++ right. exists l. split; [right; exact Hl | exact El].
        -- intros [H | [l [[<- | Hl] El]]].
           ++ left. right. exact H.
           ++ left. left. congruence.
           ++ right. exists l. split; assumption.
Qed.

End StageInitialize.

(** X20: After a successful [initialize] of a freshly constructed stage, the
    stage holds the proxy that [MicroscopeBase.connect] chose, whose
    [enable()] has returned, and one axis per configured letter, in the order
    x, y, z.  Each axis wraps the device axis that the letter names, with the
    letter's index and the units per micron that [float] read, which are not
    [<= 0.0]; its handler limits are the limits of the device axis divided by
    the units.  Every axis of the device is named by some letter, and
    [getHandlers] lists the handlers in the order of the axes. *)
Theorem initialize_builds_configured_axes (stage_name : string)
        (cfg : MicroscopeStage.Config) (direct : MicroscopeStage.Proxy)
        (controller :
           option (option (MicroscopeBase.Devices MicroscopeStage.Proxy)))
        (c_name : option string) (st : MicroscopeStage.Stage) :
  MicroscopeStage.initialize stage_name cfg direct controller c_name
  = inr st ->
  MicroscopeBase.connect direct controller c_name
  = inr (MicroscopeStage._proxy st)
  /\ MicroscopeStage.enable (MicroscopeStage._proxy st) = true
  /\ exists their_axes_map,
       MicroscopeStage.axes (MicroscopeStage._proxy st) = Some their_axes_map
       /\ Forall2 (builtFor stage_name cfg their_axes_map)
                  (configuredLetters cfg) (MicroscopeStage._axes st)
       /\ (forall k, In k (map fst their_axes_map) ->
                     exists letter,
                       MicroscopeStage.axis_name cfg letter = Some k)
       /\ map (fun h => snd (fst h)) (MicroscopeStage.getHandlers st)
          = map MicroscopeStage.AXIS_MAP (configuredLetters cfg)
       /\ map snd (MicroscopeStage.getHandlers st)
          = map MicroscopeStage.handler_limits (MicroscopeStage._axes st)
       /\ Forall scaledLimits (MicroscopeStage._axes st)
       /\ (length (MicroscopeStage._axes st) <= 3)%nat.
Proof.
  unfold MicroscopeStage.initialize. intros H.
  destruct (MicroscopeBase.connect direct controller c_name)
    as [e|proxy] eqn:Ec; [discriminate|].
  destruct (MicroscopeStage.bound proxy); [|discriminate]. cbn [negb] in H.
  destruct (MicroscopeStage.axes proxy) as [their_axes_map|] eqn:Ea;
    [|discriminate].
  destruct (MicroscopeStage.configureAxes
              stage_name cfg their_axes_map
              [MicroscopeStage.LetterX; MicroscopeStage.LetterY;
               MicroscopeStage.LetterZ] ([], []))
    as [e|[axs names]] eqn:E; [discriminate|].
  destruct (MicroscopeStage.firstUnhandled (map fst their_axes_map) names)
    as [k|] eqn:Eu; [discriminate|].
  destruct (MicroscopeStage.enable proxy) eqn:Ee; [|discriminate].
  injection H as <-. cbn [MicroscopeStage._proxy MicroscopeStage._axes].
  apply configureAxes_inr in E.
  destruct E as [ws [Ef [F Hk]]]. simpl in Ef. subst axs.
  fold (configuredLetters cfg) in F.
  split; [reflexivity|]. split; [exact Ee|].
  exists their_axes_map. split; [exact Ea|]. split; [exact F|].
  assert (Hw : forall letter w,
             builtFor stage_name cfg their_axes_map letter w ->
             MicroscopeStage.handler_index w = MicroscopeStage.AXIS_MAP letter
             /\ scaledLimits w).
  { intros letter w [n [_ [_ [_ [_ Hn]]]]].
    destruct (newAxis_inr _ _ _ _ _ _ Hn) as [Ex [Ey [Ei [lo [hi Hl]]]]].
    split; [exact Ei|]. exists lo, hi. exact Hl. }
  unfold MicroscopeStage.getHandlers. rewrite !map_map.
  cbn [fst snd MicroscopeStage._axes].
  split.
  { intros k Hin. rewrite firstUnhandled_None in Eu.
    apply Eu in Hin. apply Hk in Hin.
    destruct Hin as [[] | [l [_ El]]]. exists l. exact El. }
  clear Hk. split; [|split; [|split]].
  - induction F as [|letter w ls ws' Hb F IH]; [reflexivity|].
    simpl. rewrite IH. f_equal. apply (Hw letter w Hb).
  - reflexivity.
  - induction F as [|letter w ls ws' Hb F IH]; constructor.
    + apply (Hw letter w Hb).
    + exact IH.
  - rewrite <- (Forall2_length F). unfold configuredLetters.
    apply (filter_length_le _ [MicroscopeStage.LetterX;
                               MicroscopeStage.LetterY;
                               MicroscopeStage.LetterZ]).
Qed.

Lemma initialize_builds_configured_axes_witness :
  exists st,
    MicroscopeStage.initialize "stage" sampleConfig sampleProxy None None
    = inr st
    /\ MicroscopeStage.enable (MicroscopeStage._proxy st) = true
    /\ map (fun h => snd (fst h)) (MicroscopeStage.getHandlers st)
       = [0%nat; 1%nat]
    /\ Forall scaledLimits (MicroscopeStage._axes st).
Proof.
  destruct (MicroscopeStage.initialize "stage" sampleConfig sampleProxy
                                       None None)
    as [e|st] eqn:E.
  - vm_compute in E. discriminate E.
  - exists st. split; [reflexivity|].
    destruct (initialize_builds_configured_axes
                "stage" sampleConfig sampleProxy None None st E)
      as [_ [He [m [_ [_ [_ [Hi [_ [Hs _]]]]]]]]].
    split; [exact He|]. split; [exact Hi | exact Hs].
Defined.

(** Dividing by positive finite units keeps the order. *)
Lemma divide_monotone (x y : MicroscopeStage.Num) (u : Q) :
  0 < u ->
  MicroscopeStage.leq x y = true ->
  exists a b,
    MicroscopeStage.divide x (MicroscopeStage.Finite u) = inr a
    /\ MicroscopeStage.divide y (MicroscopeStage.Finite u) = inr b
    /\ MicroscopeStage.leq a b = true.
Proof.
  intros Hu H.
  assert (Ez : Qeq_bool u 0 = false).
  { destruct (Qeq_bool u 0) eqn:E; [|reflexivity].
    apply Qeq_bool_eq in E. rewrite E in Hu. discriminate Hu. }
  assert (Ep : Qle_bool 0 u = true)
    by (apply Qle_bool_iff, Qlt_le_weak; exact Hu).
  unfold MicroscopeStage.divide. rewrite Ez, Ep.
  eexists _, _. split; [reflexivity|]. split; [reflexivity|].
  destruct x as [a| | |], y as [b| | |]; try discriminate H; try reflexivity.
  cbn [MicroscopeStage.leq] in *. apply Qle_bool_iff in H.
  apply Qle_bool_iff. unfold Qdiv. apply Qmult_le_compat_r; [exact H|].
  apply Qlt_le_weak, Qinv_lt_0_compat. exact Hu.
Qed.

(** X22: An axis that [initialize] built with finite units per micron reports
    a position within the limits of its handler whenever the device axis
    stands within its own limits: the position and the limits are divided by
    the same units, which the check of [initialize] made positive.  The
    comparisons are those of floats, so the limits may be infinite. *)
Theorem built_axis_position_within_limits (stage_name : string)
        (cfg : MicroscopeStage.Config)
        (their_axes_map : MicroscopeStage.AxesMap)
        (letter : MicroscopeStage.AxisLetter) (w : MicroscopeStage.Axis)
        (u : Q) (lower upper p : MicroscopeStage.Num) :
  builtFor stage_name cfg their_axes_map letter w ->
  MicroscopeStage._units_per_micron w = MicroscopeStage.Finite u ->
  MicroscopeStage.limits (MicroscopeStage._axis w) = Some (lower, upper) ->
  MicroscopeStage.position (MicroscopeStage._axis w) = Some p ->
  MicroscopeStage.leq lower p = true ->
  MicroscopeStage.leq p upper = true ->
  0 < u
  /\ exists q,
       MicroscopeStage.getPosition w (MicroscopeStage.handler_index w)
       = inr q
       /\ MicroscopeStage.leq (fst (MicroscopeStage.handler_limits w)) q
          = true
       /\ MicroscopeStage.leq q (snd (MicroscopeStage.handler_limits w))
          = true.
Proof.
  intros [n [_ [_ [_ [Hnp Hn]]]]] Eu El Ep Hlo Hhi.
  rewrite Eu in Hnp. cbn [MicroscopeStage.leq] in Hnp.
  assert (Hu : 0 < u).
  { apply Qnot_le_lt. intros Hle. apply Qle_bool_iff in Hle. congruence. }
  destruct (newAxis_inr _ _ _ _ _ _ Hn) as [_ [_ [_ [lo [hi [El' [Hl Hh]]]]]]].
  rewrite El in El'. injection El' as <- <-.
  rewrite Eu in Hl, Hh.
  split; [exact Hu|].
  destruct (divide_monotone lower p u Hu Hlo) as [a [q [Ea [Eq Haq]]]].
  destruct (divide_monotone p upper u Hu Hhi) as [q' [b [Eq' [Eb Hqb]]]].
  rewrite Eq in Eq'. injection Eq' as <-.
  rewrite Ea in Hl. injection Hl as Hl.
  rewrite Eb in Hh. injection Hh as Hh.
  exists q. split; [|split].
  - unfold MicroscopeStage.getPosition. rewrite Ep, Eu. exact Eq.
  - rewrite <- Hl. exact Haq.
  - rewrite <- Hh. exact Hqb.
Qed.

Lemma built_axis_position_within_limits_witness :
  0 < 10
  /\ exists q,
       MicroscopeStage.getPosition
         sampleAxis (MicroscopeStage.handler_index sampleAxis)
       = inr q
       /\ MicroscopeStage.leq
            (fst (MicroscopeStage.handler_limits sampleAxis)) q
          = true
       /\ MicroscopeStage.leq
            q (snd (MicroscopeStage.handler_limits sampleAxis))
          = true.
Proof.
  apply (built_axis_position_within_limits
           "stage" sampleConfig sampleAxes MicroscopeStage.LetterX
           sampleAxis 10
           (MicroscopeStage.Finite (-1000)) (MicroscopeStage.Finite 3000)
           (MicroscopeStage.Finite 500)).
  - exists "A"%string. repeat split; reflexivity.
  - reflexivity.
  - reflexivity.
  - reflexivity.
  - reflexivity.
  - reflexivity.
Defined.

(** * Further properties: the proxy and the user defaults *)

(** X24: A proxy obtained through a controller is always one of the controller's
    devices.  Without [controller.name] one is obtained exactly when the
    controller has a single device; with it, any device of that name is
    found, however many devices there are. *)
Theorem connect_through_controller {P : Type} (direct : P)
        (c : option (MicroscopeBase.Devices P)) (c_name : option string) :
  (forall p, MicroscopeBase.connect direct (Some c) c_name = inr p ->
             exists devices n, c = Some devices /\ In (n, p) devices)
  /\ (forall devices,
        (exists p, MicroscopeBase.connect direct (Some (Some devices)) None
                   = inr p)
        <-> length devices = 1%nat)
  /\ (forall devices name p,
        MicroscopeBase.device devices name = Some p ->
        MicroscopeBase.connect direct (Some (Some devices)) (Some name)
        = inr p).
Proof.
  assert (Hdev : forall (devices : MicroscopeBase.Devices P) name p,
             MicroscopeBase.device devices name = Some p ->
             exists n, In (n, p) devices).
  { induction devices as [|[n q] rest IH]; intros name p H; simpl in H;
      [discriminate|].
    destruct (String.eqb n name).
    - injection H as ->. exists n. left. reflexivity.
    - destruct (IH name p H) as [m Hm]. exists m. right. exact Hm. }
  split; [|split].
  - intros p H. unfold MicroscopeBase.connect in H.
    destruct c_name as [name|].
    + destruct c as [devices|]; [|discriminate].
      destruct (MicroscopeBase.device devices name) as [q|] eqn:E;
        [|discriminate].
      injection H as ->. destruct (Hdev devices name p E) as [n Hn].
      exists devices, n. split; [reflexivity | exact Hn].
    + destruct c as [[|[n q] [|x rest]]|]; try discriminate.
      injection H as ->. exists [(n, p)], n.
      split; [reflexivity | left; reflexivity].
  - intros devices. simpl.
    destruct devices as [|[n q] [|x rest]]; simpl.
    + split; [intros [p H]; discriminate | discriminate].
    + split; [reflexivity | intros _; exists q; reflexivity].
    + split; [intros [p H]; discriminate | discriminate].
  - intros devices name p H. simpl. rewrite H. reflexivity.
Qed.

Lemma connect_through_controller_witness :
  (exists p,
     MicroscopeBase.connect 0%nat (Some (Some [("cam"%string, 7%nat)])) None
     = inr p)
  <-> length [("cam"%string, 7%nat)] = 1%nat.
Proof.
  destruct (connect_through_controller
              0%nat (Some [("cam"%string, 7%nat)]) None) as [_ [H _]].
  apply (H [("cam"%string, 7%nat)]).
Defined.

(** X25: Defaults are sent at most once: while the proxy raises, every call of
    [setAnyDefaults] tries again with the same settings, and after the first
    accepted call no later call contacts the proxy or changes anything. *)
Theorem setAnyDefaults_sends_once {V : Type} (self : MicroscopeBase.Device V)
        (failures : nat) (later : list bool) :
  MicroscopeBase.defaults self = MicroscopeBase.DEFAULTS_PENDING ->
  let tried := fold_left MicroscopeBase.setAnyDefaults
                         (repeat false failures) self in
  let done := MicroscopeBase.setAnyDefaults tried true in
  MicroscopeBase.defaults tried = MicroscopeBase.DEFAULTS_PENDING
  /\ MicroscopeBase.sent tried
     = MicroscopeBase.sent self
         ++ repeat (MicroscopeBase.settings self) failures
  /\ MicroscopeBase.defaults done = MicroscopeBase.DEFAULTS_SENT
  /\ MicroscopeBase.sent done
     = MicroscopeBase.sent self
         ++ repeat (MicroscopeBase.settings self) (S failures)
  /\ fold_left MicroscopeBase.setAnyDefaults later done = done.
Proof.
  intros Hp.
  assert (Ht : forall n (s : MicroscopeBase.Device V),
             MicroscopeBase.defaults s = MicroscopeBase.DEFAULTS_PENDING ->
             let t := fold_left MicroscopeBase.setAnyDefaults
                                (repeat false n) s in
             MicroscopeBase.defaults t = MicroscopeBase.DEFAULTS_PENDING
             /\ MicroscopeBase.settings t = MicroscopeBase.settings s
             /\ MicroscopeBase.sent t
                = MicroscopeBase.sent s
                    ++ repeat (MicroscopeBase.settings s) n).
  { induction n as [|n IH]; intros s Hs; simpl.
    - rewrite app_nil_r. repeat split. exact Hs.
    - assert (E : MicroscopeBase.setAnyDefaults s false
                  = MicroscopeBase.mkDevice
                      (MicroscopeBase.settings s)
                      MicroscopeBase.DEFAULTS_PENDING
                      (MicroscopeBase.sent s ++ [MicroscopeBase.settings s])).
      { unfold MicroscopeBase.setAnyDefaults. rewrite Hs. reflexivity. }
      rewrite E.
      destruct (IH (MicroscopeBase.mkDevice
                      (MicroscopeBase.settings s)
                      MicroscopeBase.DEFAULTS_PENDING
                      (MicroscopeBase.sent s ++ [MicroscopeBase.settings s]))
                   eq_refl) as [H1 [H2 H3]].
      simpl in H2, H3. rewrite H1, H2, H3, <- app_assoc.
      repeat split. }
  destruct (Ht failures self Hp) as [H1 [H2 H3]].
  intros tried done. fold tried in H1, H2, H3.
  split; [exact H1|]. split; [exact H3|].
  assert (Ed : done = MicroscopeBase.mkDevice
                        (MicroscopeBase.settings tried)
                        MicroscopeBase.DEFAULTS_SENT
                        (MicroscopeBase.sent tried
                           ++ [MicroscopeBase.settings tried])).
  { unfold done, MicroscopeBase.setAnyDefaults. rewrite H1. reflexivity. }
  split; [rewrite Ed; reflexivity|]. split.
  - rewrite Ed. cbn [MicroscopeBase.sent]. rewrite H3, H2, <- app_assoc.
    f_equal. replace (S failures) with (failures + 1)%nat by lia.
    rewrite repeat_app. reflexivity.
  - rewrite Ed. induction later as [|b later IH]; [reflexivity|].
    simpl. exact IH.
Qed.

Lemma setAnyDefaults_sends_once_witness :
  let self := MicroscopeBase.mkDevice
                (fun _ : string => Some 1%nat)
                MicroscopeBase.DEFAULTS_PENDING [] in
  let tried := fold_left MicroscopeBase.setAnyDefaults (repeat false 2) self in
  let done := MicroscopeBase.setAnyDefaults tried true in
  MicroscopeBase.defaults tried = MicroscopeBase.DEFAULTS_PENDING
  /\ MicroscopeBase.sent tried
     = MicroscopeBase.sent self ++ repeat (MicroscopeBase.settings self) 2
  /\ MicroscopeBase.defaults done = MicroscopeBase.DEFAULTS_SENT
  /\ MicroscopeBase.sent done
     = MicroscopeBase.sent self ++ repeat (MicroscopeBase.settings self) 3
  /\ fold_left MicroscopeBase.setAnyDefaults [true; false] done = done.
Proof.
  intros self.
  apply (setAnyDefaults_sends_once self 2 [true; false]). reflexivity.
Defined.
